(** * fileuploader: a shallow embedding of [main.go] and its specification

    The command-line tool authenticates to Telegram, uploads one file in
    parts and sends it to "Saved Messages".  This development embeds the
    parts of [main.go] that the specification talks about (Part I) and
    proves, or refutes, the specification's statements C1 to C10 on them
    (Part II).

    Conventions.
    - A Go [string] is a sequence of bytes: it is a Rocq [string] (a list of
      8-bit [ascii]).
    - A Go [error] is its message; [nil] is [None].
    - Go's standard library is not part of the repository.  Its functions
      are written out from their documented behaviour on Unix
      ([filepath.Ext], [filepath.Base], [filepath.Clean], [filepath.Join],
      [strings.ReplaceAll], the ASCII paths of [strings.ToLower] and
      [strings.TrimSpace]); what depends on the Unicode tables is kept as
      the interface [GoUnicode]. *)

From Stdlib Require Import ZArith List String Ascii Bool Arith Lia.
From Stdlib Require Import DecimalString.
Import ListNotations.
Open Scope string_scope.
Open Scope nat_scope.

(** * Part I: the embedding *)

(** ** Errors *)

Definition error := option string.
Definition nil_error : error := None.

(** [fmt.Errorf(msg)] *)
Definition Errorf (msg : string) : error := Some msg.

(** [fmt.Errorf("<ctx>: %w", err)] *)
Definition wrapf (ctx : string) (err : string) : error :=
  Some (ctx ++ ": " ++ err).

(** ** Go's [strings] package *)

Module Strings.

Definition byte_of (c : ascii) : nat := nat_of_ascii c.

(** [utf8.RuneSelf = 0x80]: bytes below it are single-byte runes. *)
Definition RuneSelf : nat := 128.

Definition isASCII (c : ascii) : bool := byte_of c <? RuneSelf.

Definition isUpper (c : ascii) : bool :=
  (65 <=? byte_of c) && (byte_of c <=? 90).

(** [c += 'a' - 'A'] for ['A' <= c && c <= 'Z'] *)
Definition lowerByte (c : ascii) : ascii :=
  if isUpper c then ascii_of_nat (byte_of c + 32) else c.

(** The table [asciiSpace] of [strings.TrimSpace]:
    ['\t', '\n', '\v', '\f', '\r', ' ']. *)
Definition asciiSpace (c : ascii) : bool :=
  let n := byte_of c in
  (n =? 9) || (n =? 10) || (n =? 11) || (n =? 12) || (n =? 13) || (n =? 32).

Fixpoint all_bytes (p : ascii -> bool) (s : string) : bool :=
  match s with
  | EmptyString => true
  | String c s' => p c && all_bytes p s'
  end.

Fixpoint map_bytes (f : ascii -> ascii) (s : string) : string :=
  match s with
  | EmptyString => EmptyString
  | String c s' => String (f c) (map_bytes f s')
  end.

Definition rev_string (s : string) : list ascii := rev (list_ascii_of_string s).

(** [unrev r acc] is the string whose bytes are [rev r] followed by [acc]. *)
Fixpoint unrev (r : list ascii) (acc : string) : string :=
  match r with
  | [] => acc
  | c :: r' => unrev r' (String c acc)
  end.

(** The parts of [strings] that consult the Unicode tables.  They are only
    reached on inputs with a byte [>= utf8.RuneSelf]. *)
Class GoUnicode := {
  (** [strings.Map(unicode.ToLower, s)] *)
  MapToLower : string -> string;
  (** [strings.TrimFunc(s, unicode.IsSpace)] *)
  TrimFuncIsSpace : string -> string;
  (** [strings.TrimRightFunc(s, unicode.IsSpace)] *)
  TrimRightFuncIsSpace : string -> string
}.

Section WithUnicode.
Context {U : GoUnicode}.

(** [strings.ToLower]: ASCII-only strings are lowered byte by byte, any
    other string goes through [strings.Map(unicode.ToLower, s)]. *)
Definition ToLower (s : string) : string :=
  if all_bytes isASCII s then map_bytes lowerByte s else MapToLower s.

(** Second loop of [strings.TrimSpace]: [r] is [s[start:stop]] reversed. *)
Fixpoint TrimSpace_stop (r : list ascii) : string :=
  match r with
  | [] => EmptyString
  | c :: r' =>
      if negb (isASCII c) then TrimRightFuncIsSpace (unrev r EmptyString)
      else if asciiSpace c then TrimSpace_stop r'
      else unrev r EmptyString
  end.

(** First loop of [strings.TrimSpace], then the second one. *)
Fixpoint TrimSpace (s : string) : string :=
  match s with
  | EmptyString => EmptyString
  | String c s' =>
      if negb (isASCII c) then TrimFuncIsSpace s
      else if asciiSpace c then TrimSpace s'
      else TrimSpace_stop (rev_string s)
  end.

End WithUnicode.

(** [strings.HasPrefix(s, prefix)] *)
Fixpoint HasPrefix (s prefix : string) : bool :=
  match prefix, s with
  | EmptyString, _ => true
  | String p prefix', String c s' => Ascii.eqb c p && HasPrefix s' prefix'
  | String _ _, EmptyString => false
  end.

(** [strings.ReplaceAll(s, old, new)] for a non-empty [old]: the
    non-overlapping occurrences of [old] are replaced from left to right.
    [skip] counts the bytes of a matched occurrence still to be dropped. *)
Fixpoint ReplaceAll_from (skip : nat) (s old new : string) : string :=
  match s with
  | EmptyString => EmptyString
  | String c s' =>
      match skip with
      | S k => ReplaceAll_from k s' old new
      | O =>
          if HasPrefix s old
          then new ++ ReplaceAll_from (String.length old - 1) s' old new
          else String c (ReplaceAll_from 0 s' old new)
      end
  end.

Definition ReplaceAll (s old new : string) : string :=
  ReplaceAll_from 0 s old new.

(** An instance for inputs that never leave the ASCII paths. *)
Definition asciiOnly : GoUnicode :=
  {| MapToLower := fun s => s;
     TrimFuncIsSpace := fun s => s;
     TrimRightFuncIsSpace := fun s => s |}.

(** A list of bytes below [utf8.RuneSelf]. *)
Definition asciiList (r : list ascii) : Prop := Forall (fun c => isASCII c = true) r.

End Strings.

(** ** Go's [path/filepath] package on Unix *)

Module Filepath.

(** [os.IsPathSeparator]: ['/'] is the only separator. *)
Definition IsPathSeparator (c : ascii) : bool := Ascii.eqb c "/".

Definition isDot (c : ascii) : bool := Ascii.eqb c ".".

(** [filepath.Ext]: scan from the last byte towards the first one and stop
    at a separator; the first dot met starts the extension.  [r] holds the
    bytes still to scan (last byte first), [suffix] the bytes scanned. *)
Fixpoint Ext_scan (r : list ascii) (suffix : string) : string :=
  match r with
  | [] => EmptyString
  | c :: r' =>
      if IsPathSeparator c then EmptyString
      else if isDot c then String c suffix
      else Ext_scan r' (String c suffix)
  end.

Definition Ext (path : string) : string :=
  Ext_scan (Strings.rev_string path) EmptyString.

Fixpoint stripTrailingSeparators (r : list ascii) : list ascii :=
  match r with
  | c :: r' => if IsPathSeparator c then stripTrailingSeparators r' else r
  | [] => []
  end.

Fixpoint lastElement (r : list ascii) (acc : string) : string :=
  match r with
  | [] => acc
  | c :: r' => if IsPathSeparator c then acc else lastElement r' (String c acc)
  end.

(** [filepath.Base] *)
Definition Base (path : string) : string :=
  match path with
  | EmptyString => "."
  | _ =>
      match lastElement (stripTrailingSeparators (Strings.rev_string path)) EmptyString with
      | EmptyString => "/"
      | b => b
      end
  end.

(** The [..] case of [filepath.Clean]: [out.w--], then keep dropping while
    [out.w > dotdot] and the byte just dropped is not a separator.  [out] is
    the output buffer, last byte first. *)
Fixpoint backtrack (dotdot : nat) (dropped : ascii) (out : list ascii) : list ascii :=
  match out with
  | [] => []
  | c :: out' =>
      if (dotdot <? List.length out) && negb (IsPathSeparator dropped)
      then backtrack dotdot c out'
      else out
  end.

(** The main loop of [filepath.Clean].  [copying] is true inside the inner
    loop that copies a real path element; [out] is the output buffer, last
    byte first; [dotdot] is the index where [..] must stop. *)
Fixpoint Clean_loop (rooted copying : bool) (path : string)
    (out : list ascii) (dotdot : nat) : list ascii :=
  match path with
  | EmptyString => out
  | String c rest =>
      if IsPathSeparator c then Clean_loop rooted false rest out dotdot
      else if copying then Clean_loop rooted true rest (c :: out) dotdot
      else
        let isElem (s : string) :=
          match s with
          | EmptyString => true
          | String d _ => IsPathSeparator d
          end in
        let realElement :=
          let out' :=
            if (rooted && negb (List.length out =? 1))
               || (negb rooted && negb (List.length out =? 0))
            then "/"%char :: out else out in
          Clean_loop rooted true rest (c :: out') dotdot in
        if isDot c && isElem rest then Clean_loop rooted false rest out dotdot
        else
          match rest with
          | String d rest' =>
              if isDot c && isDot d && isElem rest' then
                if dotdot <? List.length out then
                  match out with
                  | last :: out' =>
                      Clean_loop rooted false rest' (backtrack dotdot last out') dotdot
                  | [] => Clean_loop rooted false rest' out dotdot
                  end
                else if negb rooted then
                  let out' := match out with [] => out | _ => "/"%char :: out end in
                  Clean_loop rooted false rest' ("."%char :: "."%char :: out')
                    (List.length out' + 2)
                else Clean_loop rooted false rest' out dotdot
              else realElement
          | EmptyString => realElement
          end
  end.

(** [filepath.Clean] *)
Definition Clean (path : string) : string :=
  match path with
  | EmptyString => "."
  | String c rest =>
      let out :=
        if IsPathSeparator c
        then Clean_loop true false rest ["/"%char] 1
        else Clean_loop false false path [] 0 in
      match out with
      | [] => "."
      | _ => Strings.unrev out EmptyString
      end
  end.

(** [strings.Join(elem, "/")] *)
Fixpoint joinSep (elem : list string) : string :=
  match elem with
  | [] => EmptyString
  | [e] => e
  | e :: rest => e ++ "/" ++ joinSep rest
  end.

(** [filepath.Join]: the elements from the first non-empty one on are joined
    with the separator and cleaned. *)
Fixpoint Join (elem : list string) : string :=
  match elem with
  | [] => EmptyString
  | e :: rest =>
      match e with
      | EmptyString => Join rest
      | _ => Clean (joinSep elem)
      end
  end.

End Filepath.

(** ** Media classification ([main.go], lines 265-306 and 416-467) *)

Module Classifier.
Import Strings.

(** [tg.DocumentAttributeClass], the two attributes that [uploadFile] builds *)
Inductive DocumentAttributeClass : Type :=
| DocumentAttributeFilename (FileName : string)
| DocumentAttributeVideo (SupportsStreaming : bool).

(** [tg.InputMediaClass], the two media containers that [uploadFile] builds;
    [F] is the type of the uploaded-file handle ([tg.InputFileClass]). *)
Inductive InputMediaClass (F : Type) : Type :=
| InputMediaUploadedPhoto (File : F)
| InputMediaUploadedDocument (File : F) (MimeType : string)
    (Attributes : list DocumentAttributeClass).

Arguments InputMediaUploadedPhoto {F} File.
Arguments InputMediaUploadedDocument {F} File MimeType Attributes.

Definition imageExts : list string :=
  [".jpg"; ".jpeg"; ".png"; ".gif"; ".webp"; ".bmp"].

Definition videoExts : list string :=
  [".mp4"; ".mov"; ".avi"; ".mkv"; ".webm"; ".flv"; ".3gp"].

(** [for _, e := range exts { if ext == e { return true } }; return false] *)
Fixpoint rangeContains (exts : list string) (ext : string) : bool :=
  match exts with
  | [] => false
  | e :: rest => if String.eqb ext e then true else rangeContains rest ext
  end.

Definition isImageFile (ext : string) : bool := rangeContains imageExts ext.

Definition isVideoFile (ext : string) : bool := rangeContains videoExts ext.

(** The [switch ext] of [getMimeType], on the extension already lowered. *)
Definition mimeSwitch (ext : string) : string :=
  if String.eqb ext ".jpg" || String.eqb ext ".jpeg" then "image/jpeg"
  else if String.eqb ext ".png" then "image/png"
  else if String.eqb ext ".gif" then "image/gif"
  else if String.eqb ext ".webp" then "image/webp"
  else if String.eqb ext ".mp4" then "video/mp4"
  else if String.eqb ext ".mov" then "video/quicktime"
  else if String.eqb ext ".avi" then "video/x-msvideo"
  else if String.eqb ext ".mkv" then "video/x-matroska"
  else if String.eqb ext ".mp3" then "audio/mpeg"
  else if String.eqb ext ".wav" then "audio/wav"
  else if String.eqb ext ".pdf" then "application/pdf"
  else if String.eqb ext ".zip" then "application/zip"
  else "application/octet-stream".

(** The specification's words for the MIME resolution: a lookup table keyed
    by the lowered extension, with a default. *)
Definition mimeTable : list (string * string) :=
  [ (".jpg", "image/jpeg"); (".jpeg", "image/jpeg"); (".png", "image/png");
    (".gif", "image/gif"); (".webp", "image/webp"); (".mp4", "video/mp4");
    (".mov", "video/quicktime"); (".avi", "video/x-msvideo");
    (".mkv", "video/x-matroska"); (".mp3", "audio/mpeg"); (".wav", "audio/wav");
    (".pdf", "application/pdf"); (".zip", "application/zip") ].

Fixpoint tableLookup (table : list (string * string)) (key : string) : option string :=
  match table with
  | [] => None
  | (k, v) :: rest => if String.eqb key k then Some v else tableLookup rest key
  end.

Definition spec_mime (ext : string) : string :=
  match tableLookup mimeTable ext with
  | Some m => m
  | None => "application/octet-stream"
  end.

(** The specification's three media kinds, read off the media container:
    a photo container is [photo]; a document container is [video] when it
    carries a video attribute and [document] otherwise. *)
Inductive Kind : Type := photo | video | document.

Definition isVideoAttribute (a : DocumentAttributeClass) : bool :=
  match a with
  | DocumentAttributeVideo _ => true
  | DocumentAttributeFilename _ => false
  end.

Definition isStreamingAttribute (a : DocumentAttributeClass) : bool :=
  match a with
  | DocumentAttributeVideo s => s
  | DocumentAttributeFilename _ => false
  end.

Definition kindOf {F} (m : InputMediaClass F) : Kind :=
  match m with
  | InputMediaUploadedPhoto _ => photo
  | InputMediaUploadedDocument _ _ attrs =>
      if existsb isVideoAttribute attrs then video else document
  end.

Definition supportsStreaming {F} (m : InputMediaClass F) : bool :=
  match m with
  | InputMediaUploadedPhoto _ => false
  | InputMediaUploadedDocument _ _ attrs => existsb isStreamingAttribute attrs
  end.

(** The line that [uploadFile] prints for each kind. *)
Definition processingLine (k : Kind) : string :=
  match k with
  | photo => "Processing as photo"
  | video => "Processing as video"
  | document => "Processing as document"
  end.

Definition mimeOf {F} (m : InputMediaClass F) : option string :=
  match m with
  | InputMediaUploadedPhoto _ => None
  | InputMediaUploadedDocument _ mime _ => Some mime
  end.

Section WithUnicode.
Context {U : GoUnicode}.

(** [getMimeType] *)
Definition getMimeType (filename : string) : string :=
  let ext := ToLower (Filepath.Ext filename) in
  mimeSwitch ext.

(** The media is prepared by [uploadFile] (lines 265-306) from the file name
    and the upload handle; the second component is the line printed. *)
Definition prepareMedia {F} (fileName : string) (upload : F)
  : InputMediaClass F * string :=
  let mimeType := getMimeType fileName in
  let ext := ToLower (Filepath.Ext fileName) in
  if isImageFile ext then
    (InputMediaUploadedPhoto upload, "Processing as photo")
  else if isVideoFile ext then
    (InputMediaUploadedDocument upload mimeType
       [DocumentAttributeFilename fileName; DocumentAttributeVideo true],
     "Processing as video")
  else
    (InputMediaUploadedDocument upload mimeType
       [DocumentAttributeFilename fileName],
     "Processing as document").

(** The same [switch] with its first two cases exchanged. *)
Definition prepareMedia_videoFirst {F} (fileName : string) (upload : F)
  : InputMediaClass F * string :=
  let mimeType := getMimeType fileName in
  let ext := ToLower (Filepath.Ext fileName) in
  if isVideoFile ext then
    (InputMediaUploadedDocument upload mimeType
       [DocumentAttributeFilename fileName; DocumentAttributeVideo true],
     "Processing as video")
  else if isImageFile ext then
    (InputMediaUploadedPhoto upload, "Processing as photo")
  else
    (InputMediaUploadedDocument upload mimeType
       [DocumentAttributeFilename fileName],
     "Processing as document").

End WithUnicode.

End Classifier.

(** ** The transfer identifier ([main.go], lines 308-338) *)

Module RandomID.
Import Strings.Byte.
Local Open Scope Z_scope.

(** [crypto/rand.Reader] is represented by the bytes it is going to deliver. *)
Definition RandReader := list byte.

Definition io_EOF : string := "EOF".
Definition io_ErrUnexpectedEOF : string := "unexpected EOF".

(** [io.ReadFull(r, buf)] with [len(buf) = n]: exactly [n] bytes or an error;
    a source that ends early is drained. *)
Definition ReadFull (r : RandReader) (n : nat) : (list byte + string) * RandReader :=
  if (n <=? List.length r)%nat then (inl (firstn n r), skipn n r)
  else match r with
       | [] => (inr io_EOF, [])
       | _ => (inr io_ErrUnexpectedEOF, [])
       end.

Definition u64 (b : list byte) (i : nat) : Z := Z.of_N (to_N (nth i b x00)).

(** [binary.LittleEndian.Uint64]:
    [uint64(b[0]) | uint64(b[1])<<8 | ... | uint64(b[7])<<56] *)
Definition Uint64 (b : list byte) : Z :=
  Z.lor (Z.lor (Z.lor (Z.lor (Z.lor (Z.lor (Z.lor
    (u64 b 0)
    (Z.shiftl (u64 b 1) 8))
    (Z.shiftl (u64 b 2) 16))
    (Z.shiftl (u64 b 3) 24))
    (Z.shiftl (u64 b 4) 32))
    (Z.shiftl (u64 b 5) 40))
    (Z.shiftl (u64 b 6) 48))
    (Z.shiftl (u64 b 7) 56).

(** The conversion [int64(x)] of a [uint64]: two's complement. *)
Definition int64_of_uint64 (x : Z) : Z :=
  if x <? 2 ^ 63 then x else x - 2 ^ 64.

(** [generateRandomID]: [binary.Read] of an [int64] reads eight bytes with
    [io.ReadFull] and decodes them in little-endian order. *)
Definition generateRandomID (r : RandReader) : (Z * error) * RandReader :=
  match ReadFull r 8 with
  | (inl bs, r') => ((int64_of_uint64 (Uint64 bs), nil_error), r')
  | (inr err, r') => ((0, Some err), r')
  end.

(** [tg.MessagesSendMediaRequest], the fields that [uploadFile] sets *)
Record MessagesSendMediaRequest (M : Type) : Type := {
  Media : M;
  Message : string;
  RandomID : Z
}.

Arguments Media {M} _.
Arguments Message {M} _.
Arguments RandomID {M} _.

(** The end of [uploadFile] (lines 308-327): mint the identifier, then send.
    [send] is [api.MessagesSendMedia]; the result is the request handed to
    it, if any, the error returned and the random source left. *)
Definition sendUploaded {M : Type} (send : MessagesSendMediaRequest M -> error)
    (r : RandReader) (media : M) (fileName : string)
  : option (MessagesSendMediaRequest M) * error * RandReader :=
  match generateRandomID r with
  | ((_, Some err), r') => (None, wrapf "failed to generate random ID" err, r')
  | ((randomID, None), r') =>
      let req := {| Media := media;
                    Message := "Uploaded file: " ++ fileName;
                    RandomID := randomID |} in
      match send req with
      | Some err => (Some req, wrapf "failed to send media" err, r')
      | None => (Some req, nil_error, r')
      end
  end.

(** The identifier decoded from eight bytes. *)
Definition idOf (bs : list byte) : Z := int64_of_uint64 (Uint64 bs).

(** [binary.LittleEndian.PutUint64], least significant byte first. *)
Fixpoint PutUint (n : nat) (x : Z) : list byte :=
  match n with
  | O => []
  | S n' =>
      match of_N (Z.to_N (x mod 256)) with
      | Some b => b :: PutUint n' (x / 256)
      | None => x00 :: PutUint n' (x / 256)
      end
  end.

(** The [uint64] with the same bits as an [int64]. *)
Definition uint64_of_int64 (x : Z) : Z := x mod 2 ^ 64.

(** The value of a little-endian byte sequence. *)
Fixpoint le_value (bs : list byte) : Z :=
  match bs with
  | [] => 0
  | b :: rest => Z.of_N (to_N b) + 256 * le_value rest
  end.

(** Two sends one after the other: the identifiers they mint. *)
Definition twoIDs (r : RandReader) : (Z * error) * (Z * error) :=
  let '(first, r1) := generateRandomID r in
  let '(second, _) := generateRandomID r1 in
  (first, second).

End RandomID.

(** ** The progress reader ([main.go], lines 340-353) *)

Module Progress.
Import Strings.Byte.
Local Open Scope Z_scope.
Local Open Scope list_scope.

(** Arithmetic on Go's [int64] wraps around. *)
Definition int64_wrap (x : Z) : Z := (x + 2 ^ 63) mod 2 ^ 64 - 2 ^ 63.

(** Modelled from the spec: the progress bar of [progressbar/v3], a library
    that is not part of the sources.  The specification's ProgressState is
    its counter of bytes transferred, a 64-bit integer that starts at zero;
    [Add(n)] increments it by [n]. *)
Record ProgressBar : Type := { currentNum : Z }.

Definition NewOptions64 (max : Z) : ProgressBar := {| currentNum := 0 |}.

Definition Add (bar : ProgressBar) (num : Z) : ProgressBar :=
  {| currentNum := int64_wrap (currentNum bar + num) |}.

(** [io.Reader]: [Read(p)] is given [len(p)] and returns the bytes stored in
    [p] (so [n] is their number) and the error. *)
Class Reader (R : Type) : Type :=
  Read : R -> nat -> (list byte * error) * R.

(** An [os.File] opened for reading: the bytes after the read offset.  A
    read fills the buffer as far as the file goes; a shorter read is a read
    with a shorter buffer. *)
Record File : Type := { unread : list byte }.

Definition io_EOF : string := "EOF".

#[global] Instance File_Reader : Reader File := fun f lenp =>
  match lenp, unread f with
  | O, _ => (([], nil_error), f)
  | _, [] => (([], Some io_EOF), f)
  | _, _ => ((firstn lenp (unread f), nil_error), {| unread := skipn lenp (unread f) |})
  end.

(** [type progressReader struct { io.Reader; bar *progressbar.ProgressBar }] *)
Record progressReader (R : Type) : Type := {
  Reader_ : R;
  bar : ProgressBar
}.

Arguments Reader_ {R} _.
Arguments bar {R} _.

(** [func (pr *progressReader) Read(p []byte) (n int, err error)] *)
Definition progressReader_Read {R} `{Reader R} (pr : progressReader R) (lenp : nat)
  : (list byte * error) * progressReader R :=
  let '((p, err), r') := Read (Reader_ pr) lenp in
  let n := Z.of_nat (List.length p) in
  let bar' := if 0 <? n then Add (bar pr) n else bar pr in
  ((p, err), {| Reader_ := r'; bar := bar' |}).

#[global] Instance progressReader_Reader {R} `{Reader R} : Reader (progressReader R) :=
  progressReader_Read.

(** The reader that [uploadFile] hands to the uploader (lines 197-223). *)
Definition newProgressReader (content : list byte) : progressReader File :=
  {| Reader_ := {| unread := content |};
     bar := NewOptions64 (Z.of_nat (List.length content)) |}.

(** Any sequence of [Read] calls, given by the buffer lengths. *)
Definition readMany {R} `{Reader R} (lens : list nat) (r : R) : R :=
  fold_left (fun r lenp => snd (Read r lenp)) lens r.

(** Modelled from the spec: the Chunked Uploader (the [uploader] package of
    [gotd/td] is not part of the sources) "reads the source stream
    sequentially in fixed-size parts"; the upload completes when the stream
    reports the end of the file and fails on any other error.  The result
    is the list of parts read and the reader at the end. *)
Fixpoint Upload {R} `{Reader R} (fuel : nat) (partSize : nat) (from : R)
  : option ((list (list byte) + string) * R) :=
  match fuel with
  | O => None
  | S fuel' =>
      match Read from partSize with
      | ((p, None), from') =>
          match Upload fuel' partSize from' with
          | Some (inl parts, r) => Some (inl (p :: parts), r)
          | other => other
          end
      | ((p, Some e), from') =>
          if String.eqb e io_EOF
          then Some (inl (match p with [] => [] | _ => [p] end), from')
          else Some (inr e, from')
      end
  end.

(** The counter and the unread bytes of the file add up to the file size. *)
Definition accounted (size : Z) (pr : progressReader File) : Prop :=
  0 <= currentNum (bar pr) /\
  currentNum (bar pr) + Z.of_nat (List.length (unread (Reader_ pr))) = size.

End Progress.

(** ** Command line and session file ([main.go], lines 27-82 and 137-145) *)

Module Cli.

(** The values of the flags after [flag.Parse()]. *)
Record Flags : Type := {
  api_id : Z;
  api_hash : string;
  phone : string;
  file : string;
  url : string;
  target : string
}.

(** [type Config struct] *)
Record Config : Type := {
  AppID : Z;
  AppHash : string;
  Phone : string;
  FilePath : string;
  TargetID : string
}.

(** What [main] does after validation: [log.Fatal] with a message, or
    [run(config)], with the temporary file whose removal is deferred
    ([defer os.Remove(tmpPath)]), if any. *)
Inductive Outcome : Type :=
| Fatal (msg : string)
| Run (config : Config) (remove : option string).

Section Main.
(** [downloadFileFromURL]: its result depends on the network and on the
    file system only; it is the path of the temporary file, or an error. *)
Variable downloadFileFromURL : string -> string * error.

(** [func main()] *)
Definition main (flags : Flags) : Outcome :=
  if (api_id flags =? 0)%Z || String.eqb (api_hash flags) "" then
    Fatal "API ID and API Hash are required"
  else if String.eqb (file flags) "" && String.eqb (url flags) "" then
    Fatal "Either file path or URL is required"
  else if String.eqb (phone flags) "" then
    Fatal "Phone number is required"
  else
    let finalFilePath := file flags in
    let config (path : string) :=
      {| AppID := api_id flags;
         AppHash := api_hash flags;
         Phone := phone flags;
         FilePath := path;
         TargetID := target flags |} in
    if negb (String.eqb (url flags) "") then
      match downloadFileFromURL (url flags) with
      | (_, Some err) => Fatal ("Failed to download file: " ++ err)
      | (tmpPath, None) => Run (config tmpPath) (Some tmpPath)
      end
    else Run (config finalFilePath) None.

End Main.

(** [sessionDir := filepath.Join(".", "sessions")] *)
Definition sessionDir : string := Filepath.Join ["."; "sessions"].

(** [fmt.Sprintf("%s.session", strings.ReplaceAll(config.Phone, "+", ""))] *)
Definition sessionName (phone : string) : string :=
  Strings.ReplaceAll phone "+" "" ++ ".session".

(** [sessionPath := filepath.Join(sessionDir, ...)] in [run] *)
Definition sessionPath (phone : string) : string :=
  Filepath.Join [sessionDir; sessionName phone].

(** The decimal digits of a string, in order. *)
Definition isDigit (c : ascii) : bool :=
  (48 <=? nat_of_ascii c) && (nat_of_ascii c <=? 57).

Fixpoint digitsOf (s : string) : string :=
  match s with
  | EmptyString => EmptyString
  | String c s' => if isDigit c then String c (digitsOf s') else digitsOf s'
  end.

(** A command line with both [--file] and [--url]. *)
Definition exampleFlags : Flags :=
  {| api_id := 12345; api_hash := "0123456789abcdef"; phone := "+15550100";
     file := "local.txt"; url := "https://example.org/remote.png";
     target := "me" |}.

(** A download that succeeds. *)
Definition exampleDownload (u : string) : string * error :=
  ("/tmp/remote.png2718281828", None).

(** Not a path separator. *)
Definition notSeparator (c : ascii) : bool := negb (Filepath.IsPathSeparator c).

End Cli.

(** ** Authentication and the run ([main.go], lines 133-176 and 355-414) *)

Module Auth.
Import Strings.

(** Requests sent to Telegram. *)
Inductive RemoteCall : Type :=
| CallAuthStatus
| CallSendCode (phone : string)
| CallSignIn (phone code : string)
| CallPassword (password : string)
| CallSignUp (phone firstName lastName : string).

(** What a run does to the outside, in order. *)
Inductive Event : Type :=
| Printed (text : string)
| StdinRead
| Logged (text : string)
| Remote (call : RemoteCall)
| MkdirAll (dir : string)
| ClientRun (sessionPath : string)
| UploadFile (path : string).

(** The terminal: [stdin] holds what the successive reads of [os.Stdin]
    will return (a terminal returns one line per read). *)
Record World : Type := {
  stdin : list string;
  trace : list Event
}.

(** State passing over the world. *)
Definition IO (A : Type) : Type := World -> A * World.

Definition ret {A} (a : A) : IO A := fun w => (a, w).

Definition bind {A B} (c : IO A) (k : A -> IO B) : IO B :=
  fun w => let (a, w') := c w in k a w'.

Notation "x <- c ;; k" := (bind c (fun x => k))
  (at level 61, c at next level, right associativity).
Notation "c ;; k" := (bind c (fun _ => k))
  (at level 61, right associativity).

Definition emit (e : Event) : IO unit :=
  fun w => (tt, {| stdin := stdin w; trace := trace w ++ [e] |}).

Definition newline : string := String "010" "".

(** [fmt.Print], [fmt.Println], [log.Println] *)
Definition Print (s : string) : IO unit := emit (Printed s).
Definition Println (s : string) : IO unit := emit (Printed (s ++ newline)).
Definition logPrintln (s : string) : IO unit := emit (Logged s).

(** The prefix of [s] up to and including the first ['\n'], if any. *)
Fixpoint cutLine (s : string) : option string :=
  match s with
  | EmptyString => None
  | String c s' =>
      if Ascii.eqb c "010" then Some (String c EmptyString)
      else option_map (String c) (cutLine s')
  end.

Definition io_EOF : string := "EOF".

(** [bufio.NewReader(os.Stdin).ReadString('\n')] on a fresh reader: reads
    are accumulated until one holds the delimiter; what follows the
    delimiter in that read stays in the abandoned buffer. *)
Fixpoint ReadString (acc : string) (reads : list string)
  : (string * error) * list string :=
  match reads with
  | [] => ((acc, Some io_EOF), [])
  | r :: rest =>
      match cutLine r with
      | Some line => ((acc ++ line, nil_error), rest)
      | None => ReadString (acc ++ r) rest
      end
  end.

Definition readLine : IO (string * error) :=
  fun w =>
    let (res, rest) := ReadString EmptyString (stdin w) in
    (res, {| stdin := rest; trace := trace w ++ [StdinRead] |}).

(** [auth.UserInfo] *)
Record UserInfo : Type := { FirstName : string; LastName : string }.

(** The interface [auth.UserAuthenticator]. *)
Class UserAuthenticator (A : Type) : Type := {
  Phone : A -> IO (string * error);
  Password : A -> IO (string * error);
  Code : A -> IO (string * error);
  AcceptTermsOfService : A -> string -> IO error;
  SignUp : A -> IO (UserInfo * error)
}.

(** [type termAuth struct { phone string }] *)
Record termAuth : Type := { phone : string }.

Section WithUnicode.
Context {U : GoUnicode}.

Definition termAuth_Phone (a : termAuth) : IO (string * error) :=
  ret (phone a, nil_error).

Definition termAuth_Password (a : termAuth) : IO (string * error) :=
  Print "Enter your 2FA password: " ;;
  r <- readLine ;;
  match r with
  | (_, Some err) => ret (EmptyString, Some err)
  | (password, None) => ret (TrimSpace password, nil_error)
  end.

Definition termAuth_Code (a : termAuth) : IO (string * error) :=
  Print "Enter the authentication code sent to your Telegram: " ;;
  r <- readLine ;;
  match r with
  | (_, Some err) => ret (EmptyString, Some err)
  | (code, None) => ret (TrimSpace code, nil_error)
  end.

(** [answer != "y" && answer != "yes"] *)
Definition declined (answer : string) : bool :=
  negb (String.eqb answer "y") && negb (String.eqb answer "yes").

Definition termAuth_AcceptTermsOfService (a : termAuth) (tosText : string) : IO error :=
  Println "Terms of Service:" ;;
  Println tosText ;;
  Print "Do you accept the Terms of Service? (y/n): " ;;
  r <- readLine ;;
  match r with
  | (_, Some err) => ret (Some err)
  | (answer, None) =>
      let answer := TrimSpace (ToLower answer) in
      if declined answer then ret (Errorf "terms of service not accepted")
      else ret nil_error
  end.

Definition termAuth_SignUp (a : termAuth) : IO (UserInfo * error) :=
  Print "Enter your first name: " ;;
  r <- readLine ;;
  match r with
  | (_, Some err) => ret ({| FirstName := ""; LastName := "" |}, Some err)
  | (firstName, None) =>
      Print "Enter your last name (optional): " ;;
      r <- readLine ;;
      match r with
      | (_, Some err) =>
          ret ({| FirstName := TrimSpace firstName; LastName := "" |}, Some err)
      | (lastName, None) =>
          ret ({| FirstName := TrimSpace firstName; LastName := TrimSpace lastName |},
               nil_error)
      end
  end.

#[global] Instance termAuth_UserAuthenticator : UserAuthenticator termAuth := {|
  Phone := termAuth_Phone;
  Password := termAuth_Password;
  Code := termAuth_Code;
  AcceptTermsOfService := termAuth_AcceptTermsOfService;
  SignUp := termAuth_SignUp
|}.

End WithUnicode.

(** What signing in with a code can lead to. *)
Inductive SignInOutcome : Type :=
| SignedIn
| PasswordAuthNeeded
| SignUpRequired (termsOfService : string)
| SignInFailed (err : string).

(** The answers of the remote service to the requests of one run. *)
Record Telegram : Type := {
  authStatus : bool * error;
  sendCode : string -> error;
  signIn : string -> string -> SignInOutcome;
  checkPassword : string -> error;
  signUp : string -> UserInfo -> error
}.

Definition request {A} (call : RemoteCall) (answer : A) : IO A :=
  emit (Remote call) ;; ret answer.

(** [client.Auth().Status(ctx)] *)
Definition Status (tg : Telegram) : IO (bool * error) :=
  request CallAuthStatus (authStatus tg).

Section Flow.
Context {A : Type} `{UserAuthenticator A}.
Variable tg : Telegram.
Variable a : A.

(** Modelled from the spec: the step of the Authenticator taken when the
    remote reports an unknown user (the [auth] package of [gotd/td] is not
    part of the sources): "if remote requires ToS acceptance, responder
    must affirmatively accept or the flow fails", then "responder supplies
    signup profile (first/last name)". *)
Definition signUpFlow (phoneNumber termsOfService : string) : IO error :=
  err <- AcceptTermsOfService a termsOfService ;;
  match err with
  | Some e => ret (wrapf "confirm TOS" e)
  | None =>
      r <- SignUp a ;;
      match r with
      | (_, Some e) => ret (wrapf "sign up info not provided" e)
      | (info, None) =>
          err <- request (CallSignUp phoneNumber (FirstName info) (LastName info))
                   (signUp tg phoneNumber info) ;;
          match err with
          | Some e => ret (wrapf "sign up" e)
          | None => ret nil_error
          end
      end
  end.

(** Modelled from the spec: the Authenticator's linear state machine of
    section 4.1: "request phone number, remote issues AuthChallenge,
    responder supplies code, if remote reports an existing second factor,
    responder supplies password, if remote reports unknown user, responder
    supplies signup profile"; any step that fails ends the flow. *)
Definition flowRun : IO error :=
  r <- Phone a ;;
  match r with
  | (_, Some e) => ret (wrapf "get phone" e)
  | (phoneNumber, None) =>
      err <- request (CallSendCode phoneNumber) (sendCode tg phoneNumber) ;;
      match err with
      | Some e => ret (wrapf "send code" e)
      | None =>
          r <- Code a ;;
          match r with
          | (_, Some e) => ret (wrapf "get code" e)
          | (code, None) =>
              outcome <- request (CallSignIn phoneNumber code)
                           (signIn tg phoneNumber code) ;;
              match outcome with
              | SignedIn => ret nil_error
              | PasswordAuthNeeded =>
                  r <- Password a ;;
                  match r with
                  | (_, Some e) => ret (wrapf "get password" e)
                  | (password, None) =>
                      err <- request (CallPassword password)
                               (checkPassword tg password) ;;
                      match err with
                      | Some e => ret (wrapf "sign in with password" e)
                      | None => ret nil_error
                      end
                  end
              | SignUpRequired termsOfService => signUpFlow phoneNumber termsOfService
              | SignInFailed e => ret (wrapf "sign in" e)
              end
          end
      end
  end.

(** Modelled from the spec: [Authenticate] "first checks session validity;
    if already authorized, returns immediately", otherwise runs the flow
    ([client.Auth().IfNecessary(ctx, flow)]). *)
Definition IfNecessary : IO error :=
  st <- Status tg ;;
  match st with
  | (_, Some e) => ret (wrapf "get auth status" e)
  | (true, None) => ret nil_error
  | (false, None) => flowRun
  end.

End Flow.

(** The collaborators of [run]: the file system, the remote service and
    [uploadFile]. *)
Record Env : Type := {
  mkdirAll : string -> error;
  telegram : Telegram;
  uploadFile : Cli.Config -> error
}.

Section Run.
Context {U : GoUnicode}.
Variable env : Env.

(** The function passed to [client.Run] (lines 153-175). *)
Definition runBody (config : Cli.Config) : IO error :=
  st <- Status (telegram env) ;;
  match st with
  | (_, Some e) => ret (wrapf "failed to get auth status" e)
  | (authorized, None) =>
      err <- (if negb authorized then
                logPrintln "Starting authentication flow..." ;;
                IfNecessary (telegram env) {| phone := Cli.Phone config |}
              else ret nil_error) ;;
      match err with
      | Some e => ret (wrapf "authentication failed" e)
      | None =>
          logPrintln "Successfully authenticated!" ;;
          emit (UploadFile (Cli.FilePath config)) ;;
          ret (uploadFile env config)
      end
  end.

(** [func run(config *Config) error]; [client.Run] loads the session from
    the session file and calls the function above. *)
Definition run (config : Cli.Config) : IO error :=
  emit (MkdirAll Cli.sessionDir) ;;
  match mkdirAll env Cli.sessionDir with
  | Some e => ret (wrapf "failed to create session directory" e)
  | None =>
      emit (ClientRun (Cli.sessionPath (Cli.Phone config))) ;;
      runBody config
  end.

End Run.

(** Interactive prompts and authentication requests in a trace. *)
Definition isPrompt (e : Event) : bool :=
  match e with
  | Printed _ | StdinRead => true
  | _ => false
  end.

Definition isAuthRequest (e : Event) : bool :=
  match e with
  | Remote CallAuthStatus => false
  | Remote _ => true
  | _ => false
  end.

Definition isUpload (e : Event) : bool :=
  match e with
  | UploadFile _ => true
  | _ => false
  end.

Definition count (p : Event -> bool) (t : list Event) : nat :=
  List.length (filter p t).

(** A computation that adds no event satisfying [p] to the trace. *)
Definition silent (p : Event -> bool) {A} (c : IO A) : Prop :=
  forall w, count p (trace (snd (c w))) = count p (trace w).

(** An environment in which the session is already authorized; every
    authentication request would fail. *)
Definition authorizedEnv : Env :=
  {| mkdirAll := fun _ => None;
     telegram := {| authStatus := (true, None);
                    sendCode := fun _ => Some "unexpected request";
                    signIn := fun _ _ => SignInFailed "unexpected request";
                    checkPassword := fun _ => Some "unexpected request";
                    signUp := fun _ _ => Some "unexpected request" |};
     uploadFile := fun _ => None |}.

(** A configuration and a terminal with one line waiting. *)
Definition exampleConfig : Cli.Config :=
  {| Cli.AppID := 12345; Cli.AppHash := "0123456789abcdef";
     Cli.Phone := "+15550100"; Cli.FilePath := "holiday.mp4";
     Cli.TargetID := "me" |}.

Definition exampleWorld : World :=
  {| stdin := ["12345" ++ newline]; trace := [] |}.

Section Acceptance.
Context {U : GoUnicode}.

(** The answer counts as an acceptance. *)
Definition accepted (answer : string) : Prop :=
  TrimSpace (ToLower answer) = "y" \/ TrimSpace (ToLower answer) = "yes".

End Acceptance.

(** The prompts of [AcceptTermsOfService]. *)
Definition termsPrompts (tosText : string) : list Event :=
  [Printed ("Terms of Service:" ++ newline); Printed (tosText ++ newline);
   Printed "Do you accept the Terms of Service? (y/n): "; StdinRead].

End Auth.

(** ** The speed reporter ([main.go], lines 225-261) *)

Module Reporter.

(** Where [uploadFile] is: before [go func()] (line 235), inside
    [u.Upload] (line 254), back from it with or without an error and about
    to [close(done)] (line 257), after [close(done)] (line 259), in the
    rest of the success path (lines 263-327), returned. *)
Inductive MainPC : Type :=
| MStart
| MUploading
| MUploadReturned (ok : bool)
| MSignaled (ok : bool)
| MDispatching
| MReturned (ok : bool).

(** Where the goroutine is: not started, blocked in [select] (line 237),
    in the body of [case <-ticker.C] (lines 239-245), returned (line 247). *)
Inductive ReporterPC : Type :=
| RNotStarted
| RSelect
| RTick
| RExited.

Record State : Type := {
  main : MainPC;
  reporter : ReporterPC;
  (** [done] has been closed *)
  doneClosed : bool;
  (** [ticker.C], a channel of capacity one, holds a tick *)
  tickPending : bool;
  (** the deferred [ticker.Stop()] has run *)
  tickerStopped : bool;
  (** how many times [close(done)] has been executed *)
  closes : nat;
  (** how many times the goroutine has updated the description *)
  reports : nat;
  (** how many steps the goroutine has taken since [u.Upload] returned *)
  lateSteps : nat
}.

(** The state at line 233: ticker started, [done] open. *)
Definition init : State :=
  {| main := MStart; reporter := RNotStarted; doneClosed := false;
     tickPending := false; tickerStopped := false;
     closes := 0; reports := 0; lateSteps := 0 |}.

(** The atomic steps of the three parties: [uploadFile], the runtime's
    ticker, the goroutine. *)
Inductive Action : Type :=
| Spawn
| UploadReturns (ok : bool)
| CloseDone
| ReturnError
| Continue
| DispatchReturns (ok : bool)
| Tick
| ReceiveTick
| Report
| ReceiveDone.

Definition uploadReturned (m : MainPC) : bool :=
  match m with
  | MStart | MUploading => false
  | _ => true
  end.

Definition passedClose (m : MainPC) : bool :=
  match m with
  | MSignaled _ | MDispatching | MReturned _ => true
  | _ => false
  end.

Definition withMain (s : State) (m : MainPC) : State :=
  {| main := m; reporter := reporter s; doneClosed := doneClosed s;
     tickPending := tickPending s; tickerStopped := tickerStopped s;
     closes := closes s; reports := reports s; lateSteps := lateSteps s |}.

Definition late (s : State) : nat :=
  if uploadReturned (main s) then S (lateSteps s) else lateSteps s.

(** One step; [None] when the action is not enabled.  A [select] with both
    cases ready may take either: both [ReceiveTick] and [ReceiveDone] are
    then enabled. *)
Definition step (s : State) (a : Action) : option State :=
  match a, main s, reporter s with
  | Spawn, MStart, RNotStarted =>
      Some {| main := MUploading; reporter := RSelect; doneClosed := doneClosed s;
              tickPending := tickPending s; tickerStopped := tickerStopped s;
              closes := closes s; reports := reports s; lateSteps := lateSteps s |}
  | UploadReturns ok, MUploading, _ => Some (withMain s (MUploadReturned ok))
  | CloseDone, MUploadReturned ok, _ =>
      Some {| main := MSignaled ok; reporter := reporter s; doneClosed := true;
              tickPending := tickPending s; tickerStopped := tickerStopped s;
              closes := S (closes s); reports := reports s; lateSteps := lateSteps s |}
  | ReturnError, MSignaled false, _ =>
      Some {| main := MReturned false; reporter := reporter s;
              doneClosed := doneClosed s; tickPending := tickPending s;
              tickerStopped := true;
              closes := closes s; reports := reports s; lateSteps := lateSteps s |}
  | Continue, MSignaled true, _ => Some (withMain s MDispatching)
  | DispatchReturns ok, MDispatching, _ =>
      Some {| main := MReturned ok; reporter := reporter s;
              doneClosed := doneClosed s; tickPending := tickPending s;
              tickerStopped := true;
              closes := closes s; reports := reports s; lateSteps := lateSteps s |}
  | Tick, _, _ =>
      if tickerStopped s then None
      else Some {| main := main s; reporter := reporter s; doneClosed := doneClosed s;
                   tickPending := true; tickerStopped := tickerStopped s;
                   closes := closes s; reports := reports s; lateSteps := lateSteps s |}
  | ReceiveTick, _, RSelect =>
      if tickPending s
      then Some {| main := main s; reporter := RTick; doneClosed := doneClosed s;
                   tickPending := false; tickerStopped := tickerStopped s;
                   closes := closes s; reports := reports s; lateSteps := late s |}
      else None
  | Report, _, RTick =>
      Some {| main := main s; reporter := RSelect; doneClosed := doneClosed s;
              tickPending := tickPending s; tickerStopped := tickerStopped s;
              closes := closes s; reports := S (reports s); lateSteps := late s |}
  | ReceiveDone, _, RSelect =>
      if doneClosed s
      then Some {| main := main s; reporter := RExited; doneClosed := doneClosed s;
                   tickPending := tickPending s; tickerStopped := tickerStopped s;
                   closes := closes s; reports := reports s; lateSteps := lateSteps s |}
      else None
  | _, _, _ => None
  end.

(** A schedule: the actions of an execution, in order. *)
Fixpoint exec (s : State) (schedule : list Action) : option State :=
  match schedule with
  | [] => Some s
  | a :: rest =>
      match step s a with
      | Some s' => exec s' rest
      | None => None
      end
  end.

(** The upload fails while the goroutine is handling a tick. *)
Definition lateReportSchedule : list Action :=
  [Spawn; Tick; ReceiveTick; UploadReturns false; CloseDone; ReturnError; Report].

(** The upload succeeds; the [select] takes a tick although [done] is
    closed. *)
Definition lateTickSchedule : list Action :=
  [Spawn; UploadReturns true; Tick; CloseDone; Continue; ReceiveTick; Report;
   DispatchReturns true].

(** The specification's reading: once [u.Upload] has returned the goroutine
    takes no step, and it has exited when [done] has been closed. *)
Definition reporterJoined : Prop :=
  forall (schedule : list Action) (s : State),
    exec init schedule = Some s ->
    lateSteps s = 0 /\ (passedClose (main s) = true -> reporter s = RExited).

(** What holds in every reachable state. *)
Definition signaled (s : State) : Prop :=
  doneClosed s = passedClose (main s) /\
  closes s = (if passedClose (main s) then 1 else 0) /\
  (main s = MStart <-> reporter s = RNotStarted) /\
  (tickerStopped s = true <-> exists ok, main s = MReturned ok) /\
  (uploadReturned (main s) = false -> lateSteps s = 0).

End Reporter.

(** ** Readers in general *)

Module Readers.
Import Strings.Byte Progress.
Local Open Scope Z_scope.
Local Open Scope list_scope.

(** What a sequence of [Read] calls returns, call by call. *)
Fixpoint readResults {R} `{Reader R} (lens : list nat) (r : R)
  : list (list byte * error) :=
  match lens with
  | [] => []
  | lenp :: rest =>
      let (res, r') := Read r lenp in
      res :: readResults rest r'
  end.

(** The number of bytes in a list of results. *)
Fixpoint bytesOf (results : list (list byte * error)) : Z :=
  match results with
  | [] => 0
  | (p, _) :: rest => Z.of_nat (List.length p) + bytesOf rest
  end.

(** A reader that, as [io.Reader] allows, returns its last bytes together
    with [io.EOF]. *)
Record Eager : Type := { pending : list byte }.

#[global] Instance Eager_Reader : Reader Eager := fun r lenp =>
  if (List.length (pending r) <=? lenp)%nat
  then ((pending r, Some io_EOF), {| pending := [] |})
  else ((firstn lenp (pending r), nil_error), {| pending := skipn lenp (pending r) |}).

End Readers.

(** ** Finishing an upload *)

Module Finish.
Import Reporter.

(** The steps that take [uploadFile] from where it is to its return (the
    upload and the rest succeeding, unless the upload has failed already). *)
Definition finishMain (m : MainPC) : list Action :=
  match m with
  | MStart => [Spawn; UploadReturns true; CloseDone; Continue; DispatchReturns true]
  | MUploading => [UploadReturns true; CloseDone; Continue; DispatchReturns true]
  | MUploadReturned true => [CloseDone; Continue; DispatchReturns true]
  | MUploadReturned false => [CloseDone; ReturnError]
  | MSignaled true => [Continue; DispatchReturns true]
  | MSignaled false => [ReturnError]
  | MDispatching => [DispatchReturns true]
  | MReturned _ => []
  end.

(** The steps that take the goroutine to its return once [done] is closed. *)
Definition finishReporter (r : ReporterPC) : list Action :=
  match r with
  | RNotStarted | RSelect => [ReceiveDone]
  | RTick => [Report; ReceiveDone]
  | RExited => []
  end.

Definition finish (s : State) : list Action :=
  (finishMain (main s) ++ finishReporter (reporter s))%list.

End Finish.

(** ** Lines typed on the terminal *)

Module Terminal.
Import Strings.

(** White space other than the end of the line. *)
Definition blank (c : ascii) : bool := asciiSpace c && negb (Ascii.eqb c "010").

Definition notNewline (c : ascii) : bool := negb (Ascii.eqb c "010").

(** An ASCII byte that is not white space. *)
Definition solid (c : ascii) : bool := isASCII c && negb (asciiSpace c).

(** A non-empty string that starts and ends with such a byte. *)
Definition clean (s : string) : bool :=
  match s with
  | String c _ => solid c
  | EmptyString => false
  end
  && match rev_string s with
     | c :: _ => solid c
     | [] => false
     end.

End Terminal.

(** ** Downloading the source ([main.go], lines 84-131) *)

Module Download.
Import Strings.

(** [*http.Response], the fields that [downloadFileFromURL] reads;
    [RequestURLPath] is [resp.Request.URL.Path]. *)
Record Response : Type := {
  StatusCode : Z;
  Status : string;
  RequestURLPath : string;
  Body : list Byte.byte
}.

(** The outside of [downloadFileFromURL]: the answer of [http.Get], the
    directory of [os.TempDir()], the random string that [os.CreateTemp]
    puts into the name, the error of creating the file and the error of
    [io.Copy], if any. *)
Record System : Type := {
  Get : string -> Response + string;
  TempDir : string;
  random : string;
  openError : error;
  copyError : error
}.

(** [http.StatusOK] *)
Definition StatusOK : Z := 200.

Fixpoint hasSeparator (s : string) : bool :=
  match s with
  | EmptyString => false
  | String c s' => Filepath.IsPathSeparator c || hasSeparator s'
  end.

(** The pattern cut at its last ['*'], if it has one. *)
Fixpoint splitLastStar (s : string) : option (string * string) :=
  match s with
  | EmptyString => None
  | String c s' =>
      match splitLastStar s' with
      | Some (prefix, suffix) => Some (String c prefix, suffix)
      | None => if Ascii.eqb c "*" then Some (EmptyString, s') else None
      end
  end.

(** [prefixAndSuffix] of package [os]: a pattern with a path separator is
    refused; the random string replaces the last ['*'] or is appended. *)
Definition prefixAndSuffix (pattern : string) : (string * string) + string :=
  if hasSeparator pattern then inr "pattern contains path separator"
  else match splitLastStar pattern with
       | Some ps => inl ps
       | None => inl (pattern, EmptyString)
       end.

(** [joinPath] of package [os] *)
Definition joinPath (dir name : string) : string :=
  match rev_string dir with
  | c :: _ => if Filepath.IsPathSeparator c then dir ++ name else dir ++ "/" ++ name
  | [] => dir ++ "/" ++ name
  end.

(** [os.CreateTemp(dir, pattern)]: the name of the file created, or the
    error. *)
Definition CreateTemp (sys : System) (dir pattern : string) : string * error :=
  let dir := if String.eqb dir "" then TempDir sys else dir in
  match prefixAndSuffix pattern with
  | inr err => (EmptyString, Some ("createtemp " ++ pattern ++ ": " ++ err))
  | inl (prefix, suffix) =>
      match openError sys with
      | Some err => (EmptyString, Some err)
      | None => (joinPath dir prefix ++ random sys ++ suffix, nil_error)
      end
  end.

(** The pattern that [downloadFileFromURL] hands to [os.CreateTemp]
    (lines 96-100). *)
Definition tempPattern (resp : Response) : string :=
  let filename := Filepath.Base (RequestURLPath resp) in
  if String.eqb filename "" || String.eqb filename "/" then "downloaded_file"
  else filename.

(** [downloadFileFromURL]: the path and the error returned, and the
    temporary file that exists when it returns, if any. *)
Definition downloadFileFromURL (sys : System) (url : string)
  : (string * error) * option string :=
  match Get sys url with
  | inr err => ((EmptyString, Some err), None)
  | inl resp =>
      if negb (StatusCode resp =? StatusOK)%Z then
        ((EmptyString, Errorf ("bad status: " ++ Status resp)), None)
      else
        match CreateTemp sys EmptyString (tempPattern resp) with
        | (_, Some err) => ((EmptyString, Some err), None)
        | (name, None) =>
            match copyError sys with
            | Some err => ((EmptyString, Some err), Some name)
            | None => ((name, nil_error), Some name)
            end
        end
  end.

(** A string that ends with a decimal digit. *)
Definition endsWithDigit (s : string) : bool :=
  match rev_string s with
  | c :: _ => Cli.isDigit c
  | [] => false
  end.

(** A server that answers any request with a picture. *)
Definition pictureSystem : System :=
  {| Get := fun _ => inl {| StatusCode := 200; Status := "200 OK";
                            RequestURLPath := "/albums/2024/holiday.jpg";
                            Body := [Byte.xff; Byte.xd8] |};
     TempDir := "/tmp";
     random := "3141592653";
     openError := None;
     copyError := None |}.

End Download.

(** ** The steps of [uploadFile] in order ([main.go], lines 178-328) *)

Module UploadFile.
Import Strings.

(** The outside of [uploadFile]: [os.Stat] (the size, or an error),
    [os.Open] (the content, or an error), [u.Upload] (the handle of the
    uploaded file, or an error) and [api.MessagesSendMedia]. *)
Record Env (H : Type) : Type := {
  Stat : string -> Z * error;
  Open : string -> list Byte.byte + string;
  Upload : string -> Progress.progressReader Progress.File -> Z -> H + string;
  MessagesSendMedia :
    RandomID.MessagesSendMediaRequest (Classifier.InputMediaClass H) -> error
}.

Arguments Stat {H} _ _.
Arguments Open {H} _ _.
Arguments Upload {H} _ _ _ _.
Arguments MessagesSendMedia {H} _ _.

(** What [uploadFile] does to the outside, in order. *)
Inductive Event (H : Type) : Type :=
| Opened (path : string)
| UploadCalled (name : string) (size : Z)
| Sent (req : RandomID.MessagesSendMediaRequest (Classifier.InputMediaClass H))
| Closed (path : string).

Arguments Opened {H} path.
Arguments UploadCalled {H} name size.
Arguments Sent {H} req.
Arguments Closed {H} path.

Section WithUnicode.
Context {U : GoUnicode}.

(** [uploadFile], without the speed display: the error returned, the
    events and the random source left.  [defer file.Close()] closes the
    file on every return after the file was opened. *)
Definition uploadFile {H : Type} (env : Env H) (rand : RandomID.RandReader)
    (config : Cli.Config) : error * list (Event H) * RandomID.RandReader :=
  let path := Cli.FilePath config in
  match Stat env path with
  | (_, Some err) => (wrapf "failed to get file info" err, [], rand)
  | (fileSize, None) =>
      match Open env path with
      | inr err => (wrapf "failed to open file" err, [], rand)
      | inl content =>
          let reader :=
            {| Progress.Reader_ := {| Progress.unread := content |};
               Progress.bar := Progress.NewOptions64 fileSize |} in
          let fileName := Filepath.Base path in
          match Upload env fileName reader fileSize with
          | inr err =>
              (wrapf "upload failed" err,
               [Opened path; UploadCalled fileName fileSize; Closed path], rand)
          | inl upload =>
              let media := fst (Classifier.prepareMedia fileName upload) in
              match RandomID.sendUploaded (MessagesSendMedia env) rand media fileName with
              | (Some req, err, rand') =>
                  (err, [Opened path; UploadCalled fileName fileSize; Sent req;
                         Closed path], rand')
              | (None, err, rand') =>
                  (err, [Opened path; UploadCalled fileName fileSize; Closed path],
                   rand')
              end
          end
      end
  end.

End WithUnicode.

Definition isSent {H} (e : Event H) : bool :=
  match e with
  | Sent _ => true
  | _ => false
  end.

Definition isOpened {H} (e : Event H) : bool :=
  match e with
  | Opened _ => true
  | _ => false
  end.

Definition isClosed {H} (e : Event H) : bool :=
  match e with
  | Closed _ => true
  | _ => false
  end.

Definition occurrences {H} (p : Event H -> bool) (events : list (Event H)) : nat :=
  List.length (filter p events).

(** A file system with one file, an uploader and a service that accept
    everything. *)
Definition exampleEnv : Env string :=
  {| Stat := fun path => if String.eqb path "/home/me/clip.MP4" then (3%Z, None)
                         else (0%Z, Some "no such file or directory");
     Open := fun path => if String.eqb path "/home/me/clip.MP4"
                         then inl [Byte.x01; Byte.x02; Byte.x03]
                         else inr "no such file or directory";
     Upload := fun name _ _ => inl ("handle of " ++ name);
     MessagesSendMedia := fun _ => None |}.

Definition exampleRand : RandomID.RandReader :=
  [Byte.x2a; Byte.x00; Byte.x00; Byte.x00; Byte.x00; Byte.x00; Byte.x00; Byte.x00;
   Byte.x07].

End UploadFile.

(** ** The end of [main] ([main.go], lines 57-82) *)

Module Program.

(** How the process ends: the message of [log.Fatal], if it was called, the
    configuration [run] was called with, if it was, and the file removed by
    the deferred [os.Remove], if any. *)
Record End : Type := {
  fatal : option string;
  ran : option Cli.Config;
  removed : option string
}.

(** [func main()] with what follows [run]: [log.Fatal] leaves through
    [os.Exit(1)], so the deferred [os.Remove(tmpPath)] runs only when [main]
    returns. *)
Definition main (sys : Download.System) (run : Cli.Config -> error)
    (flags : Cli.Flags) : End :=
  match Cli.main (fun url => fst (Download.downloadFileFromURL sys url)) flags with
  | Cli.Fatal msg => {| fatal := Some msg; ran := None; removed := None |}
  | Cli.Run config remove =>
      match run config with
      | Some err => {| fatal := Some err; ran := Some config; removed := None |}
      | None => {| fatal := None; ran := Some config; removed := remove |}
      end
  end.

(** The flags of a run that fetches its source. *)
Definition urlFlags : Cli.Flags :=
  {| Cli.api_id := 12345; Cli.api_hash := "0123456789abcdef";
     Cli.phone := "+15550100"; Cli.file := "";
     Cli.url := "https://example.org/albums/2024/holiday.jpg";
     Cli.target := "me" |}.

End Program.

(** ** The wrapper ([upload.go], the second source file) *)

Module Wrapper.
Import Strings.

(** The values of the two flags after [flag.Parse()]. *)
Record Flags : Type := { file : string; target : string }.

(** The outside of the wrapper's [main]: whether [os.Stat] fails with an
    error for which [os.IsNotExist] holds, the error of
    [viper.ReadInConfig], the three values of the configuration file,
    [os.Getwd], [os.Executable] and the error of [cmd.Run]. *)
Record System : Type := {
  notExist : string -> bool;
  readInConfig : error;
  API_ID : Z;
  API_HASH : string;
  PHONE : string;
  Getwd : string * error;
  Executable : string * error;
  cmdRun : list string -> error
}.

(** How the process of the wrapper ends: [main] returns (exit status 0),
    [log.Fatal] has printed a message (exit status 1), or the [flag]
    package has printed an error and left under [flag.ExitOnError]
    (exit status 2, or 0 for a request of help). *)
Inductive Exit : Type :=
| Returned
| Fatal (msg : string)
| FlagExit (status : Z) (msg : string).

(** What the wrapper ends in: the command it has run, if any, and its
    exit. *)
Record Outcome : Type := {
  command : option (list string);
  exit : Exit
}.

(** [FlagSet.Parse] on a flag set in which no flag is defined, as
    [flag.NewFlagSet] returns it: [parseOne] stops without error on the
    empty list, on a first argument that is not a flag and on [--]; any
    flag is an error, since it is looked up among the defined ones. *)
Fixpoint untilEquals (s : string) : string :=
  match s with
  | EmptyString => EmptyString
  | String c s' => if Ascii.eqb c "=" then EmptyString else String c (untilEquals s')
  end.

Definition ErrHelp : string := "flag: help requested".

Definition parseUndefined (arguments : list string) : error :=
  match arguments with
  | [] => nil_error
  | s :: _ =>
      match s with
      | String minus (String c rest as s1) =>
          if negb (Ascii.eqb minus "-") then nil_error
          else if Ascii.eqb c "-" && String.eqb rest "" then nil_error
          else
            let name := if Ascii.eqb c "-" then rest else s1 in
            match name with
            | EmptyString => Some ("bad flag syntax: " ++ s)
            | String n name' =>
                if Ascii.eqb n "-" || Ascii.eqb n "=" then
                  Some ("bad flag syntax: " ++ s)
                else
                  let name := String n (untilEquals name') in
                  if String.eqb name "help" || String.eqb name "h" then Some ErrHelp
                  else Some ("flag provided but not defined: -" ++ name)
            end
      | _ => nil_error
      end
  end.

(** [flag.Parse()] under [flag.ExitOnError]: the process exits with status 0
    on [ErrHelp] and with status 2 on any other error. *)
Definition parseOrExit (arguments : list string) : Exit :=
  match parseUndefined arguments with
  | None => Returned
  | Some err => FlagExit (if String.eqb err ErrHelp then 0 else 2) err
  end.

(** [strings.Contains] *)
Fixpoint Contains (s substr : string) : bool :=
  HasPrefix s substr
  || match s with
     | String _ s' => Contains s' substr
     | EmptyString => false
     end.

(** [filepath.IsAbs] on Unix *)
Definition IsAbs (path : string) : bool := HasPrefix path "/".

(** [filepath.Abs] on Unix *)
Definition Abs (getwd : string * error) (path : string) : string * error :=
  if IsAbs path then (Filepath.Clean path, nil_error)
  else match getwd with
       | (_, Some err) => (EmptyString, Some err)
       | (wd, None) => (Filepath.Join [wd; path], nil_error)
       end.

(** [fmt.Sprintf("%d", n)] *)
Definition formatInt (n : Z) : string := NilZero.string_of_int (Z.to_int n).

(** The arguments that the wrapper builds for [main.go]. *)
Definition arguments (sys : System) (absPath target : string) : list string :=
  ["-api-id"; formatInt (API_ID sys);
   "-api-hash"; API_HASH sys;
   "-phone"; PHONE sys;
   "-file"; absPath;
   "-target"; target].

(** [func main()] of the wrapper.  When the name of the running binary
    does not contain [upload], the arguments are handed to a new, empty
    flag set and parsed there; nothing else is called. *)
Definition main (sys : System) (flags : Flags) : Outcome :=
  let stop (msg : string) := {| command := None; exit := Fatal msg |} in
  if String.eqb (file flags) "" then
    stop "File path is required. Use --file flag."
  else if notExist sys (file flags) then
    stop ("File does not exist: " ++ file flags)
  else
    match readInConfig sys with
    | Some err => stop ("Failed to read config file: " ++ err)
    | None =>
        if (API_ID sys =? 0)%Z || String.eqb (API_HASH sys) ""
           || String.eqb (PHONE sys) "" then
          stop "API_ID, API_HASH, and PHONE must be set in config.yaml"
        else
          match Abs (Getwd sys) (file flags) with
          | (_, Some err) => stop ("Failed to get absolute path: " ++ err)
          | (absPath, None) =>
              let args := arguments sys absPath (target flags) in
              match Executable sys with
              | (_, Some err) => stop ("Failed to get executable path: " ++ err)
              | (mainBinary, None) =>
                  if Contains (Filepath.Base mainBinary) "upload" then
                    let cmd := "go" :: "run" :: "main.go" :: args in
                    match cmdRun sys cmd with
                    | Some err =>
                        {| command := Some cmd;
                           exit := Fatal ("Command failed: " ++ err) |}
                    | None => {| command := Some cmd; exit := Returned |}
                    end
                  else {| command := None; exit := parseOrExit args |}
              end
          end
    end.

(** The checks that the wrapper makes before it looks at its own name. *)
Definition checked (sys : System) (flags : Flags) : Prop :=
  file flags <> ""
  /\ notExist sys (file flags) = false
  /\ readInConfig sys = None
  /\ API_ID sys <> 0%Z /\ API_HASH sys <> "" /\ PHONE sys <> ""
  /\ snd (Abs (Getwd sys) (file flags)) = None
  /\ snd (Executable sys) = None.

Definition namedUpload (sys : System) : bool :=
  Contains (Filepath.Base (fst (Executable sys))) "upload".

(** A machine on which everything is in place. *)
Definition exampleSystem (binary : string) : System :=
  {| notExist := fun _ => false;
     readInConfig := None;
     API_ID := 12345;
     API_HASH := "0123456789abcdef";
     PHONE := "+15550100";
     Getwd := ("/home/me/fileuploader", None);
     Executable := (binary, None);
     cmdRun := fun _ => None |}.

End Wrapper.

(** * Part II: the specification's statements *)

(** ** Lowering and trimming *)

Example ToLower_JPG : @Strings.ToLower Strings.asciiOnly ".JpG" = ".jpg".
Proof. reflexivity. Qed.

Example TrimSpace_yes :
  @Strings.TrimSpace Strings.asciiOnly (String "009" " yes " ++ String "013" (String "010" ""))
  = "yes".
Proof. reflexivity. Qed.

Example TrimSpace_inner : @Strings.TrimSpace Strings.asciiOnly "  a b  " = "a b".
Proof. reflexivity. Qed.

Example ReplaceAll_plus : Strings.ReplaceAll "+1 555+0" "+" "" = "1 5550".
Proof. reflexivity. Qed.

Example ReplaceAll_word : Strings.ReplaceAll "aaab" "aa" "x" = "xab".
Proof. reflexivity. Qed.

Module StringsProofs.
Import Strings.

(** *** Lowering and trimming ASCII strings *)

Lemma isASCII_lowerByte (c : ascii) : isASCII (lowerByte c) = isASCII c.
Proof. destruct c as [[] [] [] [] [] [] [] []]; reflexivity. Qed.

Lemma asciiSpace_lowerByte (c : ascii) : asciiSpace (lowerByte c) = asciiSpace c.
Proof. destruct c as [[] [] [] [] [] [] [] []]; reflexivity. Qed.

Lemma all_bytes_asciiList (s : string) :
  all_bytes isASCII s = true <-> asciiList (list_ascii_of_string s).
Proof.
  unfold asciiList. induction s as [|c s IH]; cbn [all_bytes list_ascii_of_string].
  - split; [constructor | reflexivity].
  - rewrite andb_true_iff, IH. split.
    + intros [Hc Hs]. now constructor.
    + intros H. inversion H; subst. now split.
Qed.

Lemma asciiList_rev_string (s : string) :
  all_bytes isASCII s = true -> asciiList (rev_string s).
Proof.
  intros H. apply all_bytes_asciiList in H. unfold rev_string, asciiList.
  now apply Forall_rev.
Qed.

Lemma list_ascii_of_map_bytes (f : ascii -> ascii) (s : string) :
  list_ascii_of_string (map_bytes f s) = map f (list_ascii_of_string s).
Proof. induction s as [|c s IH]; cbn; [reflexivity | now rewrite IH]. Qed.

Lemma rev_string_map_bytes (f : ascii -> ascii) (s : string) :
  rev_string (map_bytes f s) = map f (rev_string s).
Proof. unfold rev_string. now rewrite list_ascii_of_map_bytes, map_rev. Qed.

Lemma unrev_map (f : ascii -> ascii) (r : list ascii) (acc : string) :
  unrev (map f r) (map_bytes f acc) = map_bytes f (unrev r acc).
Proof.
  revert acc. induction r as [|c r IH]; intros acc; [reflexivity|].
  cbn [map unrev]. now rewrite <- IH.
Qed.

Lemma all_bytes_unrev (r : list ascii) (acc : string) :
  asciiList r -> all_bytes isASCII acc = true -> all_bytes isASCII (unrev r acc) = true.
Proof.
  revert acc. induction r as [|c r IH]; intros acc Hr Hacc; [exact Hacc|].
  inversion Hr; subst. cbn [unrev]. apply IH; [assumption|].
  cbn [all_bytes]. now apply andb_true_intro.
Qed.

Section AsciiPaths.
Context {U : GoUnicode}.

Lemma ToLower_ascii (s : string) :
  all_bytes isASCII s = true -> ToLower s = map_bytes lowerByte s.
Proof. intros H. unfold ToLower. now rewrite H. Qed.

Lemma TrimSpace_stop_lower (r : list ascii) :
  asciiList r ->
  TrimSpace_stop (map lowerByte r) = map_bytes lowerByte (TrimSpace_stop r).
Proof.
  induction r as [|c r IH]; intros Hr; [reflexivity|].
  inversion Hr as [|c' r' Hc Hr']; subst.
  cbn [map TrimSpace_stop].
  rewrite isASCII_lowerByte, asciiSpace_lowerByte, Hc. cbn [negb].
  destruct (asciiSpace c); [now apply IH|].
  exact (unrev_map lowerByte (c :: r) EmptyString).
Qed.

Lemma TrimSpace_stop_ascii (r : list ascii) :
  asciiList r -> all_bytes isASCII (TrimSpace_stop r) = true.
Proof.
  induction r as [|c r IH]; intros Hr; [reflexivity|].
  inversion Hr as [|c' r' Hc Hr']; subst.
  cbn [TrimSpace_stop]. rewrite Hc. cbn [negb].
  destruct (asciiSpace c); [now apply IH|].
  now apply all_bytes_unrev.
Qed.

Lemma TrimSpace_lower (s : string) :
  all_bytes isASCII s = true ->
  TrimSpace (map_bytes lowerByte s) = map_bytes lowerByte (TrimSpace s).
Proof.
  induction s as [|c s IH]; intros Hs; [reflexivity|].
  pose proof (asciiList_rev_string _ Hs) as Hrev.
  cbn [all_bytes] in Hs. apply andb_prop in Hs as [Hc Hs].
  cbn [map_bytes TrimSpace].
  rewrite isASCII_lowerByte, asciiSpace_lowerByte, Hc. cbn [negb].
  destruct (asciiSpace c); [now apply IH|].
  change (String (lowerByte c) (map_bytes lowerByte s))
    with (map_bytes lowerByte (String c s)).
  rewrite rev_string_map_bytes. now apply TrimSpace_stop_lower.
Qed.

Lemma TrimSpace_ascii (s : string) :
  all_bytes isASCII s = true -> all_bytes isASCII (TrimSpace s) = true.
Proof.
  induction s as [|c s IH]; intros Hs; [reflexivity|].
  pose proof (asciiList_rev_string _ Hs) as Hrev.
  cbn [all_bytes] in Hs. apply andb_prop in Hs as [Hc Hs].
  cbn [TrimSpace]. rewrite Hc. cbn [negb].
  destruct (asciiSpace c); [now apply IH|].
  now apply TrimSpace_stop_ascii.
Qed.

(** On ASCII input it does not matter whether a string is lowered before
    or after it is trimmed. *)
Lemma TrimSpace_ToLower_commute (s : string) :
  all_bytes isASCII s = true -> TrimSpace (ToLower s) = ToLower (TrimSpace s).
Proof.
  intros Hs.
  rewrite (ToLower_ascii s Hs), (ToLower_ascii _ (TrimSpace_ascii s Hs)).
  now apply TrimSpace_lower.
Qed.

End AsciiPaths.

End StringsProofs.

(** ** Paths *)

Example Ext_examples :
  Filepath.Ext "a/b.c/photo.JPG" = ".JPG" /\ Filepath.Ext "a.b/c" = ""
  /\ Filepath.Ext "archive.tar.gz" = ".gz" /\ Filepath.Ext ".bashrc" = ".bashrc"
  /\ Filepath.Ext "dir/" = "" /\ Filepath.Ext "x." = ".".
Proof. repeat split; reflexivity. Qed.

Example Base_examples :
  Filepath.Base "/tmp/dir/movie.mp4" = "movie.mp4" /\ Filepath.Base "" = "."
  /\ Filepath.Base "///" = "/" /\ Filepath.Base "a/b//" = "b"
  /\ Filepath.Base "plain" = "plain".
Proof. repeat split; reflexivity. Qed.

Example Clean_examples :
  Filepath.Clean "./sessions" = "sessions" /\ Filepath.Clean "a/../b" = "b"
  /\ Filepath.Clean "/../a" = "/a" /\ Filepath.Clean "../../a" = "../../a"
  /\ Filepath.Clean "a//b/./c/" = "a/b/c" /\ Filepath.Clean "a/b/../../.." = ".."
  /\ Filepath.Clean "/" = "/" /\ Filepath.Clean "abc/def/../.." = "."
  /\ Filepath.Clean "/abc/def/../../.." = "/" /\ Filepath.Clean "abc/./../def" = "def"
  /\ Filepath.Clean "abc/../../././../def" = "../../def"
  /\ Filepath.Clean "..session" = "..session".
Proof. repeat split; reflexivity. Qed.

Example Join_examples :
  Filepath.Join ["."; "sessions"] = "sessions"
  /\ Filepath.Join [""; "a"; ""; "b"] = "a/b"
  /\ Filepath.Join ["sessions"; "15550100.session"] = "sessions/15550100.session".
Proof. repeat split; reflexivity. Qed.

(** ** Media classification *)

Module ClassifierProofs.
Import Strings Classifier.

(** *** Facts about the extension sets *)

Lemma rangeContains_In (exts : list string) (ext : string) :
  rangeContains exts ext = true <-> In ext exts.
Proof.
  induction exts as [|e rest IH]; simpl.
  - split; [discriminate | contradiction].
  - destruct (String.eqb ext e) eqn:E.
    + apply String.eqb_eq in E. split; auto.
    + apply String.eqb_neq in E. rewrite IH. split; [auto | intros [H | H]; congruence].
Qed.

Lemma rangeContains_not_In (exts : list string) (ext : string) :
  rangeContains exts ext = false <-> ~ In ext exts.
Proof.
  rewrite <- rangeContains_In. destruct (rangeContains exts ext); split; congruence.
Qed.

Lemma image_not_video (ext : string) :
  isImageFile ext = true -> isVideoFile ext = false.
Proof.
  unfold isImageFile. rewrite rangeContains_In. simpl.
  intros H. decompose [or] H; subst; try reflexivity; contradiction.
Qed.

Lemma tableLookup_None (table : list (string * string)) (key : string) :
  ~ In key (map fst table) -> tableLookup table key = None.
Proof.
  induction table as [|[k v] rest IH]; simpl; intros H; [reflexivity|].
  destruct (String.eqb key k) eqn:E.
  - apply String.eqb_eq in E. exfalso. apply H. left. congruence.
  - apply IH. intros Hin. apply H. now right.
Qed.

Lemma mimeSwitch_is_table (ext : string) : mimeSwitch ext = spec_mime ext.
Proof.
  unfold mimeSwitch, spec_mime, mimeTable, tableLookup.
  repeat match goal with
         | |- context [String.eqb ext ?k] => destruct (String.eqb ext k); simpl; try reflexivity
         end.
Qed.

Section Theorems.
Context {U : GoUnicode}.

(** C1.  For every file name the media kind is decided by the lowered
    extension: the media is a photo exactly when the extension is one of
    [.jpg .jpeg .png .gif .webp .bmp]; it is a video, and then carries the
    supports-streaming attribute, exactly when the extension is one of
    [.mp4 .mov .avi .mkv .webm .flv .3gp]; it is a document for every other
    extension, and in particular when the name has no extension. *)
Theorem kind_decided_by_extension {F : Type} (fileName : string) (upload : F) :
  let ext := ToLower (Filepath.Ext fileName) in
  let m := fst (prepareMedia fileName upload) in
  (kindOf m = photo <-> In ext imageExts) /\
  (kindOf m = video /\ supportsStreaming m = true <-> In ext videoExts) /\
  (kindOf m = video <-> In ext videoExts) /\
  (kindOf m = document <-> ~ In ext imageExts /\ ~ In ext videoExts) /\
  (Filepath.Ext fileName = "" -> kindOf m = document) /\
  snd (prepareMedia fileName upload) = processingLine (kindOf m).
Proof.
  cbv zeta. unfold prepareMedia.
  assert (Hnone : Filepath.Ext fileName = "" ->
                  isImageFile (ToLower (Filepath.Ext fileName)) = false /\
                  isVideoFile (ToLower (Filepath.Ext fileName)) = false).
  { intros ->. split; reflexivity. }
  revert Hnone. generalize (getMimeType fileName) as mime.
  generalize (ToLower (Filepath.Ext fileName)) as ext.
  intros ext mime Hnone.
  pose proof (image_not_video ext) as Hdisj.
  pose proof (rangeContains_In imageExts ext) as Hi.
  pose proof (rangeContains_In videoExts ext) as Hv.
  fold (isImageFile ext) in Hi. fold (isVideoFile ext) in Hv.
  destruct (isImageFile ext) eqn:Ei; [rewrite (Hdisj eq_refl) in *|];
    [|destruct (isVideoFile ext) eqn:Ev];
    cbn [fst snd kindOf supportsStreaming existsb isVideoAttribute isStreamingAttribute
           orb processingLine];
    intuition (discriminate || congruence).
Qed.

(** C7.  For every file name the MIME type is the lookup of the lowered
    extension in the table, [application/octet-stream] whenever the
    extension is not a key of the table; the lookup does not consult the
    kind: a [.pdf] is a document with MIME type [application/pdf], while a
    [.bmp] photo, a [.webm] video and a [.bin] document all resolve to
    [application/octet-stream]. *)
Theorem mime_lookup_by_extension (fileName : string) :
  let ext := ToLower (Filepath.Ext fileName) in
  getMimeType fileName = spec_mime ext /\
  (~ In ext (map fst mimeTable) -> getMimeType fileName = "application/octet-stream") /\
  (kindOf (fst (prepareMedia "report.PDF" tt)) = document /\
   getMimeType "report.PDF" = "application/pdf") /\
  (kindOf (fst (prepareMedia "scan.bmp" tt)) = photo /\
   getMimeType "scan.bmp" = "application/octet-stream") /\
  (kindOf (fst (prepareMedia "clip.webm" tt)) = video /\
   getMimeType "clip.webm" = "application/octet-stream") /\
  (kindOf (fst (prepareMedia "blob.bin" tt)) = document /\
   getMimeType "blob.bin" = "application/octet-stream").
Proof.
  cbv zeta. split; [|split].
  - unfold getMimeType. apply mimeSwitch_is_table.
  - intros Hnot. unfold getMimeType. rewrite mimeSwitch_is_table.
    unfold spec_mime. now rewrite tableLookup_None.
  - repeat split; reflexivity.
Qed.

(** C10.  The image extensions and the video extensions are disjoint:
    [isImageFile] and [isVideoFile] are never both true, so the media built
    for a file name is the same whichever of the two cases is tested
    first. *)
Theorem image_video_sets_disjoint {F : Type} (fileName : string) (upload : F) :
  (forall ext, isImageFile ext && isVideoFile ext = false) /\
  (forall ext, In ext imageExts /\ In ext videoExts <-> False) /\
  prepareMedia_videoFirst fileName upload = prepareMedia fileName upload.
Proof.
  assert (D : forall ext, isImageFile ext && isVideoFile ext = false).
  { intros ext. destruct (isImageFile ext) eqn:E; [|reflexivity].
    simpl. now apply image_not_video. }
  split; [exact D|]. split.
  - intros ext. split; [|contradiction]. intros [Hi Hv].
    apply rangeContains_In in Hi. apply rangeContains_In in Hv.
    specialize (D ext). unfold isImageFile, isVideoFile in D.
    rewrite Hi, Hv in D. discriminate.
  - unfold prepareMedia_videoFirst, prepareMedia.
    specialize (D (ToLower (Filepath.Ext fileName))).
    destruct (isImageFile _), (isVideoFile _); try reflexivity; discriminate.
Qed.

End Theorems.

End ClassifierProofs.

(** ** The transfer identifier *)

Example generateRandomID_run :
  RandomID.generateRandomID
    [Byte.x01; Byte.x00; Byte.x00; Byte.x00; Byte.x00; Byte.x00; Byte.x00; Byte.x80; Byte.xff]
  = ((-9223372036854775807, None), [Byte.xff])%Z.
Proof. reflexivity. Qed.

Example generateRandomID_short :
  RandomID.generateRandomID [Byte.x01; Byte.x02]
  = ((0%Z, Some "unexpected EOF"), []).
Proof. reflexivity. Qed.

Module RandomIDProofs.
Import Strings.Byte RandomID.
Local Open Scope Z_scope.
Local Open Scope list_scope.

Lemma byte_range (b : byte) : 0 <= Z.of_N (to_N b) <= 255.
Proof. pose proof (to_N_bounded b). lia. Qed.

Lemma lor_shiftl_add (a y k : Z) :
  0 <= k -> 0 <= a < 2 ^ k -> 0 <= y -> Z.lor a (Z.shiftl y k) = a + y * 2 ^ k.
Proof.
  intros Hk Ha Hy.
  pose proof (Z.add_lor_land a (Z.shiftl y k)) as Hsum.
  assert (Hz : Z.land a (Z.shiftl y k) = 0).
  { apply Z.bits_inj'. intros n Hn.
    rewrite Z.land_spec, Z.bits_0.
    destruct (Z.lt_ge_cases n k) as [Hlt | Hge].
    - rewrite (Z.shiftl_spec_low y k n Hlt). apply andb_false_r.
    - assert (Hb : Z.testbit a n = false).
      { destruct (Z.eq_dec a 0) as [-> | Hne]; [apply Z.bits_0|].
        apply Z.bits_above_log2; [lia|].
        apply Z.lt_le_trans with k; [|assumption].
        apply Z.log2_lt_pow2; lia. }
      rewrite Hb. reflexivity. }
  rewrite Hz in Hsum. rewrite Z.shiftl_mul_pow2 in * by assumption. lia.
Qed.

Ltac eval_pow2 :=
  repeat match goal with
         | |- context [2 ^ ?k] =>
             let v := eval vm_compute in (2 ^ k) in change (2 ^ k) with v
         end.

Ltac lor_to_add :=
  repeat match goal with
         | |- context [Z.lor ?a (Z.shiftl ?y ?k)] =>
             lazymatch a with
             | context [Z.lor] => fail
             | _ => rewrite (lor_shiftl_add a y k) by (eval_pow2; lia)
             end
         end.

Lemma Uint64_le_value (bs : list byte) :
  List.length bs = 8%nat -> Uint64 bs = le_value bs.
Proof.
  intros Hlen.
  do 8 (destruct bs as [|? bs]; [discriminate|]).
  destruct bs; [clear Hlen|discriminate].
  unfold Uint64, u64. cbn [nth le_value].
  repeat match goal with
         | b : byte |- _ =>
             pose proof (byte_range b); generalize dependent (Z.of_N (to_N b));
             clear b; intros
         end.
  lor_to_add. eval_pow2. lia.
Qed.

Lemma le_value_range (bs : list byte) :
  0 <= le_value bs < 256 ^ Z.of_nat (List.length bs).
Proof.
  induction bs as [|b rest IH].
  - simpl. lia.
  - cbn [le_value List.length]. rewrite Nat2Z.inj_succ, Z.pow_succ_r by lia.
    pose proof (byte_range b). lia.
Qed.

Lemma le_value_inj (bs1 bs2 : list byte) :
  List.length bs1 = List.length bs2 -> le_value bs1 = le_value bs2 -> bs1 = bs2.
Proof.
  revert bs2. induction bs1 as [|b1 r1 IH]; intros [|b2 r2] Hlen Hv;
    try discriminate; [reflexivity|].
  cbn [le_value] in Hv. injection Hlen as Hlen.
  pose proof (byte_range b1). pose proof (byte_range b2).
  assert (Hb : Z.of_N (to_N b1) = Z.of_N (to_N b2)) by lia.
  assert (Hr : le_value r1 = le_value r2) by lia.
  f_equal; [|now apply IH].
  apply N2Z.inj in Hb.
  pose proof (of_to_N b1) as E1. pose proof (of_to_N b2) as E2.
  rewrite Hb in E1. congruence.
Qed.

Lemma int64_of_uint64_inj (x y : Z) :
  0 <= x < 2 ^ 64 -> 0 <= y < 2 ^ 64 ->
  int64_of_uint64 x = int64_of_uint64 y -> x = y.
Proof.
  unfold int64_of_uint64. intros Hx Hy.
  destruct (x <? 2 ^ 63) eqn:Ex, (y <? 2 ^ 63) eqn:Ey;
    rewrite ?Z.ltb_lt, ?Z.ltb_ge in *; lia.
Qed.

Lemma le_value_PutUint (n : nat) (x : Z) :
  0 <= x < 256 ^ Z.of_nat n ->
  le_value (PutUint n x) = x /\ List.length (PutUint n x) = n.
Proof.
  revert x. induction n as [|n IH]; intros x Hx.
  - simpl in *. split; [lia | reflexivity].
  - rewrite Nat2Z.inj_succ, Z.pow_succ_r in Hx by lia.
    assert (Hm : 0 <= x mod 256 < 256) by (apply Z.mod_pos_bound; lia).
    assert (Hd : 0 <= x / 256 < 256 ^ Z.of_nat n).
    { split; [apply Z.div_pos; lia | apply Z.div_lt_upper_bound; lia]. }
    destruct (IH _ Hd) as [IHv IHl].
    cbn [PutUint].
    destruct (of_N (Z.to_N (x mod 256))) as [b|] eqn:Eb.
    + apply to_of_N in Eb. cbn [le_value List.length].
      rewrite Eb, IHv, IHl, Z2N.id by lia.
      split; [|reflexivity].
      pose proof (Z.div_mod x 256). lia.
    + apply of_N_None_iff in Eb. lia.
Qed.

Lemma Uint64_range (bs : list byte) :
  List.length bs = 8%nat -> 0 <= Uint64 bs < 2 ^ 64.
Proof.
  intros Hlen. rewrite (Uint64_le_value bs Hlen).
  pose proof (le_value_range bs) as H. rewrite Hlen in H. exact H.
Qed.

Lemma idOf_inj (bs1 bs2 : list byte) :
  List.length bs1 = 8%nat -> List.length bs2 = 8%nat ->
  idOf bs1 = idOf bs2 -> bs1 = bs2.
Proof.
  intros H1 H2 Hid. unfold idOf in Hid.
  apply int64_of_uint64_inj in Hid; try now apply Uint64_range.
  rewrite !Uint64_le_value in Hid by assumption.
  apply le_value_inj; congruence.
Qed.

Lemma idOf_range (bs : list byte) :
  List.length bs = 8%nat -> - 2 ^ 63 <= idOf bs < 2 ^ 63.
Proof.
  intros Hlen. pose proof (Uint64_range bs Hlen) as H.
  unfold idOf, int64_of_uint64.
  destruct (Uint64 bs <? 2 ^ 63) eqn:E; rewrite ?Z.ltb_lt, ?Z.ltb_ge in E; lia.
Qed.

Lemma idOf_PutUint (id : Z) :
  - 2 ^ 63 <= id < 2 ^ 63 ->
  List.length (PutUint 8 (uint64_of_int64 id)) = 8%nat /\
  idOf (PutUint 8 (uint64_of_int64 id)) = id.
Proof.
  intros Hid. unfold uint64_of_int64.
  assert (Hm : 0 <= id mod 2 ^ 64 < 2 ^ 64) by (apply Z.mod_pos_bound; lia).
  destruct (le_value_PutUint 8 (id mod 2 ^ 64)) as [Hv Hl]; [exact Hm|].
  split; [exact Hl|].
  unfold idOf. rewrite (Uint64_le_value _ Hl), Hv. unfold int64_of_uint64.
  destruct (Z.lt_ge_cases id 0) as [Hneg | Hpos].
  - assert (E : id mod 2 ^ 64 = id + 2 ^ 64).
    { rewrite <- (Z.mod_add id 1 (2 ^ 64)) by lia. apply Z.mod_small. lia. }
    rewrite E. destruct (id + 2 ^ 64 <? 2 ^ 63) eqn:C;
      rewrite ?Z.ltb_lt, ?Z.ltb_ge in C; lia.
  - rewrite Z.mod_small by lia.
    destruct (id <? 2 ^ 63) eqn:C; rewrite ?Z.ltb_lt, ?Z.ltb_ge in C; lia.
Qed.

Lemma generateRandomID_reads_8 (bs rest : list byte) :
  List.length bs = 8%nat ->
  generateRandomID (bs ++ rest) = ((idOf bs, nil_error), rest).
Proof.
  intros Hlen.
  do 8 (destruct bs as [|? bs]; [discriminate|]).
  destruct bs; [reflexivity|discriminate].
Qed.

(** C8.  Every send mints its identifier by reading eight fresh bytes (a
    full 64 bits) from the random source and decoding them; the decoding is
    one-to-one and onto the 64-bit integers, so two sends in a row get the
    same identifier exactly when the source delivered the same eight bytes
    twice, and distinct eight-byte inputs always give distinct identifiers;
    when the source cannot deliver eight bytes nothing is sent. *)
Theorem transfer_id_fresh_64_bits :
  (forall (M : Type) (send : MessagesSendMediaRequest M -> error)
          (bs rest : list byte) (media : M) (fileName : string),
      List.length bs = 8%nat ->
      fst (fst (sendUploaded send (bs ++ rest) media fileName))
      = Some {| Media := media;
                Message := ("Uploaded file: " ++ fileName)%string;
                RandomID := idOf bs |}
      /\ snd (sendUploaded send (bs ++ rest) media fileName) = rest) /\
  (forall bs1 bs2 rest : list byte,
      List.length bs1 = 8%nat -> List.length bs2 = 8%nat ->
      twoIDs (bs1 ++ bs2 ++ rest) = ((idOf bs1, nil_error), (idOf bs2, nil_error))
      /\ (idOf bs1 = idOf bs2 <-> bs1 = bs2)) /\
  (forall bs1 bs2 : list byte,
      List.length bs1 = 8%nat -> List.length bs2 = 8%nat ->
      bs1 <> bs2 -> idOf bs1 <> idOf bs2) /\
  (forall bs : list byte, List.length bs = 8%nat -> - 2 ^ 63 <= idOf bs < 2 ^ 63) /\
  (forall id : Z, - 2 ^ 63 <= id < 2 ^ 63 ->
      exists bs : list byte,
        List.length bs = 8%nat /\ idOf bs = id /\
        forall bs' : list byte, List.length bs' = 8%nat -> idOf bs' = id -> bs' = bs) /\
  (forall (M : Type) (send : MessagesSendMediaRequest M -> error)
          (r : RandReader) (media : M) (fileName : string),
      (List.length r < 8)%nat ->
      fst (fst (sendUploaded send r media fileName)) = None /\
      snd (fst (sendUploaded send r media fileName)) <> None).
Proof.
  split; [|split; [|split; [|split; [|split]]]].
  - intros M send bs rest media fileName Hlen.
    unfold sendUploaded. rewrite (generateRandomID_reads_8 bs rest Hlen).
    unfold nil_error. destruct (send _); split; reflexivity.
  - intros bs1 bs2 rest H1 H2. split.
    + unfold twoIDs.
      rewrite (generateRandomID_reads_8 bs1 (bs2 ++ rest) H1).
      rewrite (generateRandomID_reads_8 bs2 rest H2). reflexivity.
    + split; [now apply idOf_inj | now intros ->].
  - intros bs1 bs2 H1 H2 Hne Hid. apply Hne. now apply idOf_inj.
  - exact idOf_range.
  - intros id Hid. exists (PutUint 8 (uint64_of_int64 id)).
    destruct (idOf_PutUint id Hid) as [Hlen Hval].
    split; [exact Hlen|]. split; [exact Hval|].
    intros bs' Hlen' Hval'. apply idOf_inj; congruence.
  - intros M send r media fileName Hshort.
    unfold sendUploaded, generateRandomID, ReadFull.
    destruct (8 <=? List.length r)%nat eqn:E; [apply Nat.leb_le in E; lia|].
    destruct r; split; (reflexivity || discriminate).
Qed.

End RandomIDProofs.

(** ** The progress counter *)

Example Upload_run :
  Progress.Upload 10 2
    (Progress.newProgressReader [Byte.x61; Byte.x62; Byte.x63; Byte.x64; Byte.x65])
  = Some (inl [[Byte.x61; Byte.x62]; [Byte.x63; Byte.x64]; [Byte.x65]],
          {| Progress.Reader_ := {| Progress.unread := [] |};
             Progress.bar := {| Progress.currentNum := 5 |} |}).
Proof. reflexivity. Qed.

Module ProgressProofs.
Import Strings.Byte Progress.
Local Open Scope Z_scope.
Local Open Scope list_scope.

(** *** The counter during an upload *)

(** Whatever the wrapped reader is, [Read] passes its result on and adds
    the number of bytes to the counter when that number is positive. *)
Lemma progressReader_Read_adds {R} `{Reader R} (pr : progressReader R) (lenp : nat) :
  let n := Z.of_nat (List.length (fst (fst (Read (Reader_ pr) lenp)))) in
  fst (progressReader_Read pr lenp) = fst (Read (Reader_ pr) lenp) /\
  Reader_ (snd (progressReader_Read pr lenp)) = snd (Read (Reader_ pr) lenp) /\
  bar (snd (progressReader_Read pr lenp))
  = if 0 <? n then Add (bar pr) n else bar pr.
Proof.
  cbv zeta. unfold progressReader_Read.
  destruct (Read (Reader_ pr) lenp) as [[p err] r']. cbn [fst snd Reader_ bar].
  repeat split.
Qed.

Lemma int64_wrap_small (x : Z) : - 2 ^ 63 <= x < 2 ^ 63 -> int64_wrap x = x.
Proof. intros H. unfold int64_wrap. rewrite Z.mod_small; lia. Qed.

Lemma accounted_new (content : list byte) :
  accounted (Z.of_nat (List.length content)) (newProgressReader content).
Proof. unfold accounted. simpl. lia. Qed.

Lemma Read_accounted (size : Z) (pr : progressReader File) (lenp : nat) :
  size < 2 ^ 63 -> accounted size pr ->
  let p := fst (fst (progressReader_Read pr lenp)) in
  let pr' := snd (progressReader_Read pr lenp) in
  accounted size pr' /\
  currentNum (bar pr') = currentNum (bar pr) + Z.of_nat (List.length p) /\
  unread (Reader_ pr) = p ++ unread (Reader_ pr').
Proof.
  intros Hsize [H0 Hsum]. cbv zeta.
  destruct pr as [[rest] [cur]]. unfold accounted.
  cbn [Reader_ bar unread currentNum] in *.
  unfold progressReader_Read, Read, File_Reader. cbn [Reader_ bar unread].
  destruct lenp as [|k];
    [cbn [fst snd Reader_ bar unread currentNum List.length app Z.of_nat Z.ltb Z.compare];
     repeat split; first [lia | reflexivity] |].
  destruct rest as [|b rest];
    [cbn [fst snd Reader_ bar unread currentNum List.length app Z.of_nat Z.ltb Z.compare] in *;
     repeat split; first [lia | reflexivity] |].
  set (l := b :: rest) in *.
  assert (Hl : (0 < List.length l)%nat) by (unfold l; cbn [List.length]; lia).
  clearbody l. cbn [fst snd].
  pose proof (length_firstn (S k) l) as Hf.
  pose proof (length_skipn (S k) l) as Hs.
  destruct (0 <? Z.of_nat (List.length (firstn (S k) l))) eqn:E;
    rewrite ?Z.ltb_lt, ?Z.ltb_ge in E; cbn [Reader_ bar unread currentNum Add].
  - rewrite int64_wrap_small by lia.
    repeat split; try lia. symmetry. apply firstn_skipn.
  - lia.
Qed.

Lemma readMany_accounted (size : Z) (lens : list nat) (pr : progressReader File) :
  size < 2 ^ 63 -> accounted size pr -> accounted size (readMany lens pr).
Proof.
  intros Hsize. revert pr. induction lens as [|lenp lens IH]; intros pr Hacc.
  - exact Hacc.
  - cbn [readMany fold_left]. apply IH.
    exact (proj1 (Read_accounted size pr lenp Hsize Hacc)).
Qed.

Lemma Upload_completes (size : Z) (partSize fuel : nat) (pr : progressReader File) :
  size < 2 ^ 63 -> (0 < partSize)%nat -> accounted size pr ->
  (List.length (unread (Reader_ pr)) < fuel)%nat ->
  exists parts pr',
    Upload fuel partSize pr = Some (inl parts, pr') /\
    List.concat parts = unread (Reader_ pr) /\
    unread (Reader_ pr') = [] /\
    currentNum (bar pr') = size.
Proof.
  intros Hsize Hpart. revert pr.
  induction fuel as [|fuel IH]; intros pr Hacc Hfuel; [lia|].
  pose proof (Read_accounted size pr partSize Hsize Hacc) as Hstep.
  cbv zeta in Hstep. destruct Hstep as (Hacc' & Hcur & Hsplit).
  cbn [Upload]. change (Read pr partSize) with (progressReader_Read pr partSize).
  destruct (progressReader_Read pr partSize) as [[p err] pr'] eqn:Eread.
  cbn [fst snd] in *.
  unfold progressReader_Read, Read, File_Reader in Eread.
  destruct partSize as [|k]; [lia|].
  destruct (unread (Reader_ pr)) as [|b rest] eqn:Eun.
  - injection Eread as <- <- <-. cbn.
    exists [], {| Reader_ := Reader_ pr; bar := bar pr |}.
    destruct Hacc as [_ Hacc]. rewrite Eun in Hacc. simpl in *.
    repeat split; try assumption. lia.
  - injection Eread as Ep Eerr Epr. subst err.
    assert (Hlen : (List.length (unread (Reader_ pr')) < fuel)%nat).
    { rewrite <- Epr. cbn [Reader_ unread]. rewrite length_skipn.
      simpl in Hfuel |- *. lia. }
    destruct (IH pr' Hacc' Hlen) as (parts & pr'' & Hup & Hcat & Hnil & Hfin).
    unfold nil_error. rewrite Hup. exists (p :: parts), pr''.
    repeat split; try assumption.
    cbn [List.concat]. rewrite Hcat. symmetry. exact Hsplit.
Qed.

(** C2.  During the upload of a file of size [S] the counter of bytes
    transferred never decreases: after any sequence of reads, whatever the
    buffer lengths, a further read that returns [n] bytes leaves it at its
    old value plus [n] (so unchanged when [n = 0]), within [0..S]; the
    counter and the bytes not yet read always add up to [S], so the counter
    is exactly [S] once the stream has been read to its end; and the upload
    does read it to its end: it completes with the counter at [S] and the
    parts read make up the file. *)
Theorem counter_monotone_and_complete (content : list byte) (partSize : nat) :
  Z.of_nat (List.length content) < 2 ^ 63 -> (0 < partSize)%nat ->
  let size := Z.of_nat (List.length content) in
  (forall (lens : list nat) (lenp : nat),
      let pr := readMany lens (newProgressReader content) in
      let p := fst (fst (progressReader_Read pr lenp)) in
      let pr' := snd (progressReader_Read pr lenp) in
      currentNum (bar pr') = currentNum (bar pr) + Z.of_nat (List.length p) /\
      0 <= currentNum (bar pr) <= currentNum (bar pr') /\
      currentNum (bar pr') <= size /\
      currentNum (bar pr) + Z.of_nat (List.length (unread (Reader_ pr))) = size /\
      (unread (Reader_ pr) = [] -> currentNum (bar pr) = size)) /\
  (exists parts pr',
      Upload (S (List.length content)) partSize (newProgressReader content)
      = Some (inl parts, pr') /\
      List.concat parts = content /\
      currentNum (bar pr') = size).
Proof.
  intros Hsize Hpart size. split.
  - intros lens lenp. cbv zeta.
    pose proof (readMany_accounted size lens (newProgressReader content) Hsize
                  (accounted_new content)) as Hacc.
    pose proof (Read_accounted size _ lenp Hsize Hacc) as Hstep.
    cbv zeta in Hstep. destruct Hstep as ([H0 Hsum] & Hcur & _).
    destruct Hacc as [Hge Hall].
    repeat split; try lia.
    intros Hend. rewrite Hend in Hall. cbn [List.length] in Hall. lia.
  - destruct (Upload_completes size partSize (S (List.length content))
                (newProgressReader content) Hsize Hpart (accounted_new content))
      as (parts & pr' & Hup & Hcat & _ & Hfin).
    + simpl. lia.
    + exists parts, pr'. repeat split; assumption.
Qed.

(** The theorem at a five-byte file read in parts of two bytes. *)
Lemma counter_monotone_and_complete_witness :
  let content := [x61; x62; x63; x64; x65] in
  (forall (lens : list nat) (lenp : nat),
      let pr := readMany lens (newProgressReader content) in
      let p := fst (fst (progressReader_Read pr lenp)) in
      let pr' := snd (progressReader_Read pr lenp) in
      currentNum (bar pr') = currentNum (bar pr) + Z.of_nat (List.length p) /\
      0 <= currentNum (bar pr) <= currentNum (bar pr') /\
      currentNum (bar pr') <= 5 /\
      currentNum (bar pr) + Z.of_nat (List.length (unread (Reader_ pr))) = 5 /\
      (unread (Reader_ pr) = [] -> currentNum (bar pr) = 5)) /\
  (exists parts pr',
      Upload 6 2 (newProgressReader content) = Some (inl parts, pr') /\
      List.concat parts = content /\
      currentNum (bar pr') = 5).
Proof.
  apply (counter_monotone_and_complete [x61; x62; x63; x64; x65] 2).
  - vm_compute. reflexivity.
  - lia.
Defined.

End ProgressProofs.

(** ** The upload source and the session file *)

Example sessionPath_examples :
  Cli.sessionPath "+15550100" = "sessions/15550100.session"
  /\ Cli.sessionPath "+1 555-0100" = "sessions/1 555-0100.session"
  /\ Cli.sessionPath "15550100" = "sessions/15550100.session"
  /\ Cli.digitsOf "+1 555-0100" = "15550100".
Proof. repeat split; reflexivity. Qed.

Module CliProofs.
Import Cli.

(** *** The upload source *)

(** C4, as stated, fails: with both [--file local.txt] and [--url ...]
    given (and the download succeeding) [run] is handed the downloaded
    temporary file, not the [--file] path. *)
Lemma file_flag_is_overridden_by_url :
  file exampleFlags = "local.txt" /\
  url exampleFlags = "https://example.org/remote.png" /\
  main exampleDownload exampleFlags
  = Run {| AppID := 12345; AppHash := "0123456789abcdef"; Phone := "+15550100";
           FilePath := "/tmp/remote.png2718281828"; TargetID := "me" |}
        (Some "/tmp/remote.png2718281828") /\
  String.eqb "/tmp/remote.png2718281828" (file exampleFlags) = false.
Proof. repeat split; reflexivity. Qed.

(** C4, amended.  Whenever [main] reaches [run], the upload source is the
    file downloaded from [--url] if that flag is not empty, whatever
    [--file] says; the [--file] path is the source only when [--url] is
    empty.  The deferred [os.Remove] is registered for the downloaded file
    and for no other. *)
Theorem url_flag_overrides_file (download : string -> string * error)
    (flags : Flags) (config : Config) (remove : option string) :
  main download flags = Run config remove ->
  (url flags <> "" /\
   download (url flags) = (FilePath config, None) /\
   remove = Some (FilePath config))
  \/
  (url flags = "" /\ file flags <> "" /\
   FilePath config = file flags /\ remove = None).
Proof.
  unfold main.
  destruct ((api_id flags =? 0)%Z || String.eqb (api_hash flags) ""); [discriminate|].
  destruct (String.eqb (file flags) "") eqn:Ef;
    destruct (String.eqb (url flags) "") eqn:Eu; cbn [andb negb];
    try discriminate;
    (destruct (String.eqb (phone flags) ""); [discriminate|]).
  - apply String.eqb_neq in Eu.
    destruct (download (url flags)) as [tmp [err|]] eqn:Ed; [discriminate|].
    intros H. injection H as <- <-. left. cbn [FilePath]. auto.
  - apply String.eqb_eq in Eu. apply String.eqb_neq in Ef.
    intros H. injection H as <- <-. right. cbn [FilePath]. auto.
  - apply String.eqb_neq in Eu.
    destruct (download (url flags)) as [tmp [err|]] eqn:Ed; [discriminate|].
    intros H. injection H as <- <-. left. cbn [FilePath]. auto.
Qed.

(** The amended statement at the example: both flags given. *)
Lemma url_flag_overrides_file_witness :
  (url exampleFlags <> "" /\
   exampleDownload (url exampleFlags) = ("/tmp/remote.png2718281828", None) /\
   Some "/tmp/remote.png2718281828" = Some "/tmp/remote.png2718281828")
  \/
  (url exampleFlags = "" /\ file exampleFlags <> "" /\
   "/tmp/remote.png2718281828" = file exampleFlags /\
   Some "/tmp/remote.png2718281828" = None).
Proof.
  apply (url_flag_overrides_file exampleDownload exampleFlags
           {| AppID := 12345; AppHash := "0123456789abcdef"; Phone := "+15550100";
              FilePath := "/tmp/remote.png2718281828"; TargetID := "me" |}
           (Some "/tmp/remote.png2718281828")).
  reflexivity.
Defined.

(** *** The session file *)

Lemma append_empty_r (s : string) : s ++ "" = s.
Proof. induction s as [|c s IH]; simpl; [reflexivity | now rewrite IH]. Qed.

Lemma all_bytes_append (p : ascii -> bool) (s t : string) :
  Strings.all_bytes p (s ++ t) = Strings.all_bytes p s && Strings.all_bytes p t.
Proof.
  induction s as [|c s IH]; simpl; [reflexivity|].
  now rewrite IH, andb_assoc.
Qed.

Lemma length_append (s t : string) :
  String.length (s ++ t) = String.length s + String.length t.
Proof. induction s as [|c s IH]; simpl; [reflexivity | now rewrite IH]. Qed.

Lemma unrev_rev_append (s : string) (out : list ascii) (acc : string) :
  Strings.unrev (rev (list_ascii_of_string s) ++ out)%list acc
  = Strings.unrev out (s ++ acc).
Proof.
  revert out acc. induction s as [|c s IH]; intros out acc; [reflexivity|].
  cbn [list_ascii_of_string rev]. rewrite <- app_assoc. cbn [app].
  rewrite IH. reflexivity.
Qed.

(** Inside a path element without separator, [Clean] copies. *)
Lemma Clean_loop_copies (s : string) (rooted : bool) (out : list ascii) (dotdot : nat) :
  Strings.all_bytes notSeparator s = true ->
  Filepath.Clean_loop rooted true s out dotdot
  = (rev (list_ascii_of_string s) ++ out)%list.
Proof.
  revert out. induction s as [|c s IH]; intros out Hs; [reflexivity|].
  cbn [Strings.all_bytes] in Hs. apply andb_prop in Hs as [Hc Hs].
  unfold notSeparator in Hc. apply negb_true_iff in Hc.
  cbn [Filepath.Clean_loop]. rewrite Hc, (IH _ Hs).
  cbn [list_ascii_of_string rev]. now rewrite <- app_assoc.
Qed.

(** A path element of three bytes or more is neither [.] nor [..]: after a
    first element, [Clean] appends a separator and the element. *)
Lemma Clean_loop_long_element (e : string) (out : list ascii) (dotdot : nat) :
  Strings.all_bytes notSeparator e = true -> 3 <= String.length e -> out <> [] ->
  Filepath.Clean_loop false false e out dotdot
  = (rev (list_ascii_of_string e) ++ "/"%char :: out)%list.
Proof.
  intros Hs Hlen Hout.
  destruct e as [|c [|d [|x rest]]]; cbn [String.length] in Hlen; try lia.
  cbn [Strings.all_bytes] in Hs.
  apply andb_prop in Hs as [Hc Hs]. pose proof Hs as Hrest.
  apply andb_prop in Hs as [Hd Hs]. apply andb_prop in Hs as [Hx _].
  unfold notSeparator in Hc, Hd, Hx.
  apply negb_true_iff in Hc, Hd, Hx.
  assert (Hne : (List.length out =? 0) = false).
  { destruct out; [contradiction | reflexivity]. }
  cbn [Filepath.Clean_loop]. rewrite Hc, Hd, Hx, Hne.
  rewrite !andb_false_r. cbn [andb orb negb].
  apply andb_prop in Hrest as [_ Hrest]. apply andb_prop in Hrest as [_ Hrest].
  rewrite (Clean_loop_copies _ _ _ _ Hrest).
  cbn [list_ascii_of_string rev]. rewrite <- !app_assoc. reflexivity.
Qed.

Lemma sessionDir_eq : sessionDir = "sessions".
Proof. reflexivity. Qed.

Lemma sessionPath_explicit (phone : string) :
  Strings.all_bytes notSeparator phone = true ->
  sessionPath phone = "sessions/" ++ Strings.ReplaceAll phone "+" "" ++ ".session".
Proof.
  intros Hsep. unfold sessionPath. rewrite sessionDir_eq.
  assert (Hname : Strings.all_bytes notSeparator (sessionName phone) = true
                  /\ 3 <= String.length (sessionName phone)).
  { unfold sessionName. rewrite all_bytes_append, length_append. cbn [String.length].
    split; [|lia]. apply andb_true_intro. split; [|reflexivity].
    unfold Strings.ReplaceAll. induction phone as [|c s IH]; [reflexivity|].
    cbn [Strings.all_bytes] in Hsep. apply andb_prop in Hsep as [Hc Hs].
    cbn [Strings.ReplaceAll_from Strings.HasPrefix String.length Nat.sub].
    destruct (Ascii.eqb c "+"); cbn [andb].
    - destruct s; cbn [String.append]; now apply IH.
    - cbn [Strings.all_bytes]. rewrite Hc. now apply IH. }
  destruct Hname as [Hn Hl].
  fold (sessionName phone). generalize dependent (sessionName phone). intros name Hn Hl.
  cbn [Filepath.Join Filepath.joinSep].
  change ("sessions" ++ "/" ++ name) with ("sessions/" ++ name).
  unfold Filepath.Clean. cbn -[Strings.unrev].
  rewrite Clean_loop_long_element by (assumption || discriminate).
  destruct (rev (list_ascii_of_string name) ++ _)%list eqn:E.
  - apply app_eq_nil in E as [_ E]. discriminate.
  - rewrite <- E. rewrite unrev_rev_append. cbn. now rewrite append_empty_r.
Qed.

(** C5, as stated, fails: two phone strings with the same digits get
    different session files when they differ in a character other than
    ['+'], which is the only character removed. *)
Lemma same_digits_different_session_files :
  digitsOf "+1 555-0100" = digitsOf "+15550100" /\
  sessionPath "+1 555-0100" = "sessions/1 555-0100.session" /\
  sessionPath "+15550100" = "sessions/15550100.session" /\
  String.eqb (sessionPath "+1 555-0100") (sessionPath "+15550100") = false.
Proof. repeat split; reflexivity. Qed.

(** C5, amended.  The session file of a run is keyed by the phone string
    with every ['+'] removed (and nothing else): two phone strings that are
    equal once their ['+'] are removed get the same session file, which for
    a phone string without ['/'] is [sessions/<phone without +>.session]. *)
Theorem session_file_keyed_by_phone_without_plus (phone1 phone2 : string) :
  Strings.ReplaceAll phone1 "+" "" = Strings.ReplaceAll phone2 "+" "" ->
  sessionPath phone1 = sessionPath phone2 /\
  (Strings.all_bytes notSeparator phone1 = true ->
   sessionPath phone1
   = "sessions/" ++ Strings.ReplaceAll phone1 "+" "" ++ ".session").
Proof.
  intros Heq. split.
  - unfold sessionPath, sessionName. now rewrite Heq.
  - apply sessionPath_explicit.
Qed.

(** The amended statement at two spellings of one number. *)
Lemma session_file_keyed_by_phone_without_plus_witness :
  sessionPath "+15550100" = sessionPath "1555+0100" /\
  (Strings.all_bytes notSeparator "+15550100" = true ->
   sessionPath "+15550100"
   = "sessions/" ++ Strings.ReplaceAll "+15550100" "+" "" ++ ".session").
Proof.
  apply (session_file_keyed_by_phone_without_plus "+15550100" "1555+0100").
  reflexivity.
Defined.

End CliProofs.

(** ** Authentication *)

Module AuthProofs.
Import Strings StringsProofs Auth.

(** *** Traces *)

Lemma count_app (p : Event -> bool) (t1 t2 : list Event) :
  count p (t1 ++ t2) = count p t1 + count p t2.
Proof. unfold count. now rewrite filter_app, length_app. Qed.

Lemma silent_ret (p : Event -> bool) {A} (x : A) : silent p (ret x).
Proof. intros w. reflexivity. Qed.

Lemma silent_bind (p : Event -> bool) {A B} (c : IO A) (k : A -> IO B) :
  silent p c -> (forall x, silent p (k x)) -> silent p (bind c k).
Proof.
  intros Hc Hk w. unfold bind. specialize (Hc w).
  destruct (c w) as [x w'] eqn:E. cbn [snd] in Hc. now rewrite (Hk x w').
Qed.

Lemma silent_emit (p : Event -> bool) (e : Event) : p e = false -> silent p (emit e).
Proof.
  intros He w. unfold emit. cbn [snd trace].
  rewrite count_app. unfold count at 2. cbn [filter]. rewrite He. cbn. lia.
Qed.

Lemma silent_readLine (p : Event -> bool) : p StdinRead = false -> silent p readLine.
Proof.
  intros He w. unfold readLine.
  destruct (ReadString "" (stdin w)) as [res rest]. cbn [snd trace].
  rewrite count_app. unfold count at 2. cbn [filter]. rewrite He. cbn. lia.
Qed.

Ltac silent_step :=
  match goal with
  | |- silent _ (bind _ _) => apply silent_bind; [|intro]
  | |- silent _ (ret _) => apply silent_ret
  | |- silent _ readLine => apply silent_readLine; reflexivity
  | |- silent _ (emit _) => apply silent_emit; reflexivity
  | |- silent _ (Print _) => apply silent_emit; reflexivity
  | |- silent _ (Println _) => apply silent_emit; reflexivity
  | |- silent _ (logPrintln _) => apply silent_emit; reflexivity
  | |- silent _ (request _ _) => unfold request
  | |- silent _ (match ?x with _ => _ end) => destruct x
  end.

(** *** The terminal authenticator *)

Section Theorems.
Context {U : GoUnicode}.

Lemma declined_false (answer : string) :
  declined answer = false <-> answer = "y" \/ answer = "yes".
Proof.
  unfold declined.
  destruct (String.eqb answer "y") eqn:Ey, (String.eqb answer "yes") eqn:Eyes;
    rewrite ?String.eqb_eq, ?String.eqb_neq in *; cbn [negb andb];
    split; auto; try discriminate.
  intros [H | H]; contradiction.
Qed.

Lemma AcceptTermsOfService_run (a : termAuth) (tosText : string) (w : World) :
  termAuth_AcceptTermsOfService a tosText w
  = (match fst (ReadString "" (stdin w)) with
     | (_, Some err) => Some err
     | (answer, None) =>
         if declined (TrimSpace (ToLower answer))
         then Errorf "terms of service not accepted" else nil_error
     end,
     {| stdin := snd (ReadString "" (stdin w));
        trace := trace w ++ termsPrompts tosText |}).
Proof.
  unfold termAuth_AcceptTermsOfService, bind, Println, Print, emit, readLine, ret.
  cbn [stdin trace].
  destruct (ReadString "" (stdin w)) as [[answer [err|]] rest]; cbn [fst snd].
  - now rewrite <- !app_assoc.
  - destruct (declined _); now rewrite <- !app_assoc.
Qed.

(** C9.  When the terms of service have to be accepted, the step succeeds
    only if the line read from the terminal, lowered and trimmed, is [y] or
    [yes]; a line that is anything else makes it return the error "terms of
    service not accepted", a failed read makes it return the read error;
    and then the sign-up flow fails with that error, without asking for the
    sign-up profile and without sending the sign-up request.  On an ASCII
    line it makes no difference whether it is lowered or trimmed first. *)
Theorem terms_of_service_must_be_accepted (a : termAuth) (tosText : string) (w : World) :
  let answer := fst (fst (ReadString "" (stdin w))) in
  let readErr := snd (fst (ReadString "" (stdin w))) in
  let result := fst (AcceptTermsOfService a tosText w) in
  (result = None <-> readErr = None /\ accepted answer) /\
  (readErr = None -> ~ accepted answer ->
   result = Some "terms of service not accepted") /\
  (forall e, readErr = Some e -> result = Some e) /\
  (all_bytes isASCII answer = true ->
   TrimSpace (ToLower answer) = ToLower (TrimSpace answer)) /\
  (forall (tg : Telegram) (phoneNumber : string),
      (fst (signUpFlow tg a phoneNumber tosText w) = None ->
       readErr = None /\ accepted answer) /\
      (forall e, result = Some e ->
       signUpFlow tg a phoneNumber tosText w
       = (wrapf "confirm TOS" e,
          {| stdin := snd (ReadString "" (stdin w));
             trace := trace w ++ termsPrompts tosText |}))).
Proof.
  cbv zeta. cbn [AcceptTermsOfService termAuth_UserAuthenticator].
  assert (Hiff : fst (termAuth_AcceptTermsOfService a tosText w) = None <->
                 snd (fst (ReadString "" (stdin w))) = None /\
                 accepted (fst (fst (ReadString "" (stdin w))))).
  { rewrite AcceptTermsOfService_run. cbn [fst]. unfold accepted.
    destruct (fst (ReadString "" (stdin w))) as [answer [err|]]; cbn [fst snd].
    - split; [discriminate | intros [H _]; discriminate].
    - rewrite <- declined_false.
      destruct (declined _); split; try discriminate; auto.
      intros [_ H]; discriminate. }
  split; [exact Hiff|]. split; [|split; [|split]].
  - intros Hread Hnot. rewrite AcceptTermsOfService_run. cbn [fst].
    unfold accepted in Hnot. rewrite <- declined_false in Hnot.
    destruct (fst (ReadString "" (stdin w))) as [answer [err|]];
      cbn [fst snd] in *; [discriminate|].
    destruct (declined _); [reflexivity | now contradiction Hnot].
  - intros e Hread. rewrite AcceptTermsOfService_run. cbn [fst].
    destruct (fst (ReadString "" (stdin w))) as [answer [err|]];
      cbn [fst snd] in *; congruence.
  - apply TrimSpace_ToLower_commute.
  - intros tg phoneNumber. split.
    + intros Hflow. apply Hiff.
      unfold signUpFlow, bind in Hflow.
      cbn [AcceptTermsOfService termAuth_UserAuthenticator] in Hflow.
      destruct (termAuth_AcceptTermsOfService a tosText w) as [[e|] w'];
        [discriminate | reflexivity].
    + intros e He. unfold signUpFlow, bind.
      cbn [AcceptTermsOfService termAuth_UserAuthenticator].
      rewrite AcceptTermsOfService_run in *. cbn [fst] in He. now rewrite He.
Qed.

(** *** The run *)

(** C6.  If the status check reports an authorized session, the run asks
    nothing on the terminal and sends no authentication request: after the
    status check it goes straight to the upload. *)
Theorem authorized_session_skips_authentication
    (env : Env) (config : Cli.Config) (w : World) :
  mkdirAll env Cli.sessionDir = None ->
  authStatus (telegram env) = (true, None) ->
  let result := run env config w in
  fst result = uploadFile env config /\
  stdin (snd result) = stdin w /\
  trace (snd result)
  = (trace w ++ [MkdirAll Cli.sessionDir;
                 ClientRun (Cli.sessionPath (Cli.Phone config));
                 Remote CallAuthStatus;
                 Logged "Successfully authenticated!";
                 UploadFile (Cli.FilePath config)])%list /\
  count isPrompt (trace (snd result)) = count isPrompt (trace w) /\
  count isAuthRequest (trace (snd result)) = count isAuthRequest (trace w).
Proof.
  intros Hdir Hst. cbv zeta.
  assert (Hrun : run env config w
                 = (uploadFile env config,
                    {| stdin := stdin w;
                       trace := trace w ++ [MkdirAll Cli.sessionDir;
                                            ClientRun (Cli.sessionPath (Cli.Phone config));
                                            Remote CallAuthStatus;
                                            Logged "Successfully authenticated!";
                                            UploadFile (Cli.FilePath config)] |})).
  { unfold run, runBody, bind, emit, Status, request, logPrintln, bind, emit, ret.
    rewrite Hdir, Hst. unfold nil_error. cbn [negb stdin trace].
    now rewrite <- !app_assoc. }
  rewrite Hrun. cbn [fst snd stdin trace].
  repeat split; rewrite count_app; unfold count at 2; cbn; lia.
Qed.

(** The authentication never starts the upload. *)
Lemma IfNecessary_never_uploads (tg : Telegram) (a : termAuth) :
  silent isUpload (IfNecessary tg a).
Proof.
  unfold IfNecessary, flowRun, signUpFlow, Status.
  cbn [Phone Code Password AcceptTermsOfService SignUp termAuth_UserAuthenticator].
  unfold termAuth_Phone, termAuth_Code, termAuth_Password,
    termAuth_AcceptTermsOfService, termAuth_SignUp.
  repeat silent_step.
Qed.

(** When the authentication fails, so does the run, before any upload. *)
Lemma run_stops_when_authentication_fails
    (env : Env) (config : Cli.Config) (w : World) (e : string) :
  mkdirAll env Cli.sessionDir = None ->
  authStatus (telegram env) = (false, None) ->
  fst (IfNecessary (telegram env) {| phone := Cli.Phone config |}
         {| stdin := stdin w;
            trace := trace w ++ [MkdirAll Cli.sessionDir;
                                 ClientRun (Cli.sessionPath (Cli.Phone config));
                                 Remote CallAuthStatus;
                                 Logged "Starting authentication flow..."] |})
  = Some e ->
  fst (run env config w) = wrapf "authentication failed" e /\
  count isUpload (trace (snd (run env config w))) = count isUpload (trace w).
Proof.
  intros Hdir Hst Hflow.
  pose proof (IfNecessary_never_uploads (telegram env) {| phone := Cli.Phone config |}
                {| stdin := stdin w;
                   trace := trace w ++ [MkdirAll Cli.sessionDir;
                                        ClientRun (Cli.sessionPath (Cli.Phone config));
                                        Remote CallAuthStatus;
                                        Logged "Starting authentication flow..."] |})
    as Hsilent.
  unfold run, runBody, bind, emit, Status, request, logPrintln, bind, emit, ret.
  rewrite Hdir, Hst. cbn [negb stdin trace]. rewrite <- !app_assoc. cbn [app].
  destruct (IfNecessary _ _ _) as [[e'|] w'] eqn:E; cbn [fst snd] in *;
    [|discriminate].
  injection Hflow as ->. split; [reflexivity|].
  rewrite Hsilent. cbn [trace]. rewrite count_app. unfold count at 2. cbn. lia.
Qed.

End Theorems.

(** The theorem in that environment. *)
Lemma authorized_session_skips_authentication_witness :
  let result := @run asciiOnly authorizedEnv exampleConfig exampleWorld in
  fst result = None /\
  stdin (snd result) = ["12345" ++ newline] /\
  trace (snd result)
  = [MkdirAll "sessions"; ClientRun "sessions/15550100.session";
     Remote CallAuthStatus; Logged "Successfully authenticated!";
     UploadFile "holiday.mp4"] /\
  count isPrompt (trace (snd result)) = 0 /\
  count isAuthRequest (trace (snd result)) = 0.
Proof.
  apply (@authorized_session_skips_authentication asciiOnly
           authorizedEnv exampleConfig exampleWorld); reflexivity.
Defined.

End AuthProofs.

(** ** The speed reporter *)

Example lateReportSchedule_run :
  Reporter.exec Reporter.init Reporter.lateReportSchedule
  = Some {| Reporter.main := Reporter.MReturned false;
            Reporter.reporter := Reporter.RSelect;
            Reporter.doneClosed := true; Reporter.tickPending := false;
            Reporter.tickerStopped := true; Reporter.closes := 1;
            Reporter.reports := 1; Reporter.lateSteps := 1 |}.
Proof. reflexivity. Qed.

Module ReporterProofs.
Import Reporter.

(** *** What the stop signal guarantees *)

(** C3, as stated, fails: in the execution [lateReportSchedule] the upload
    fails while the goroutine is in the body of its tick case; [done] is
    closed and [uploadFile] returns, and the goroutine then still updates
    the description: it has taken a step after [u.Upload] returned and has
    not exited.  In [lateTickSchedule] it even starts a new iteration after
    [done] was closed. *)
Lemma reporter_runs_after_upload_returned :
  option_map main (exec init lateReportSchedule) = Some (MReturned false) /\
  option_map reporter (exec init lateReportSchedule) = Some RSelect /\
  option_map lateSteps (exec init lateReportSchedule) = Some 1 /\
  option_map closes (exec init lateReportSchedule) = Some 1 /\
  option_map lateSteps (exec init lateTickSchedule) = Some 2.
Proof. repeat split; reflexivity. Qed.

(** So the goroutine is not joined in the specification's sense. *)
Lemma reporter_not_joined : ~ reporterJoined.
Proof.
  intros H.
  destruct (exec init lateReportSchedule) as [s|] eqn:E; [|discriminate].
  destruct (H _ _ E) as [Hlate _].
  vm_compute in E. injection E as <-. discriminate.
Qed.

Lemma signaled_init : signaled init.
Proof.
  unfold signaled, init. cbn. repeat split; auto; try discriminate.
  intros [ok H]. discriminate.
Qed.

Ltac signaled_case Hr Ht Hl :=
  repeat match goal with
         | |- _ /\ _ => split
         | |- _ <-> _ => split
         end;
  first
    [ congruence
    | lia
    | discriminate
    | exact (proj1 Hr)
    | exact (proj2 Hr)
    | exact (proj1 Ht)
    | exact (proj2 Ht)
    | exact Hl
    | intros _; eexists; reflexivity
    | intros _; reflexivity
    | intros [? ?]; discriminate
    | intros H; apply (proj1 Ht) in H; destruct H; discriminate
    | intros H; apply (proj1 Hr) in H; discriminate
    | intros H; apply (proj2 Hr) in H; discriminate
    | intros _; apply Hl; reflexivity ].

Lemma signaled_step (s s' : State) (a : Action) :
  signaled s -> step s a = Some s' -> signaled s'.
Proof.
  intros (Hd & Hc & Hr & Ht & Hl) Hstep.
  destruct s as [m r d tp ts c n l].
  cbn [main reporter doneClosed closes tickerStopped lateSteps] in *.
  unfold step, late, withMain in Hstep.
  cbn [main reporter doneClosed closes tickerStopped tickPending lateSteps] in Hstep.
  destruct a; destruct m as [| |k|k| |k]; try destruct k; destruct r;
    try discriminate Hstep;
    try (destruct ts; [discriminate Hstep|]);
    try (destruct tp; [|discriminate Hstep]);
    try (destruct d; [|discriminate Hstep]);
    injection Hstep as <-;
    unfold signaled;
    cbn [main reporter doneClosed closes tickerStopped passedClose uploadReturned lateSteps] in *;
    signaled_case Hr Ht Hl.
Qed.

Lemma signaled_exec (schedule : list Action) (s s' : State) :
  signaled s -> exec s schedule = Some s' -> signaled s'.
Proof.
  revert s. induction schedule as [|a rest IH]; intros s Hs Hexec.
  - injection Hexec as <-. exact Hs.
  - cbn [exec] in Hexec. destruct (step s a) as [s1|] eqn:E; [|discriminate].
    apply (IH s1); [now apply (signaled_step s s1 a) | exact Hexec].
Qed.

(** A goroutine that has returned stays so. *)
Lemma exited_step (s s' : State) (a : Action) :
  reporter s = RExited -> step s a = Some s' ->
  reporter s' = RExited /\ reports s' = reports s /\ lateSteps s' = lateSteps s.
Proof.
  intros Hr Hstep. destruct s as [m r d tp ts c n l]. cbn [reporter] in Hr. subst r.
  unfold step in Hstep.
  cbn [main reporter doneClosed closes tickerStopped tickPending] in Hstep.
  destruct a; destruct m as [| |k|k| |k]; try destruct k;
    try discriminate Hstep;
    try (destruct ts; [discriminate Hstep|]);
    injection Hstep as <-; repeat split.
Qed.

Lemma exited_exec (schedule : list Action) (s s' : State) :
  reporter s = RExited -> exec s schedule = Some s' ->
  reporter s' = RExited /\ reports s' = reports s /\ lateSteps s' = lateSteps s.
Proof.
  revert s. induction schedule as [|a rest IH]; intros s Hr Hexec.
  - injection Hexec as <-. repeat split; assumption.
  - cbn [exec] in Hexec. destruct (step s a) as [s1|] eqn:E; [|discriminate].
    destruct (exited_step s s1 a Hr E) as (Hr1 & Hn1 & Hl1).
    destruct (IH s1 Hr1 Hexec) as (Hr2 & Hn2 & Hl2).
    repeat split; congruence.
Qed.

(** C3, amended.  In every execution the goroutine is signaled to stop
    exactly once, by the [close(done)] that directly follows the return of
    [u.Upload], on the success path and on the error path alike, and not
    before [u.Upload] has returned; it is signaled, not joined: from then
    on its [select] can take the [done] case, and once it has taken it the
    goroutine never runs again. *)
Theorem reporter_signaled_once_after_upload (schedule : list Action) (s : State) :
  exec init schedule = Some s ->
  doneClosed s = passedClose (main s) /\
  closes s = (if passedClose (main s) then 1 else 0) /\
  (uploadReturned (main s) = false -> doneClosed s = false /\ lateSteps s = 0) /\
  (forall ok, main s = MUploadReturned ok ->
     option_map doneClosed (step s CloseDone) = Some true /\
     option_map main (step s CloseDone) = Some (MSignaled ok)) /\
  (doneClosed s = true -> reporter s = RSelect ->
     option_map reporter (step s ReceiveDone) = Some RExited) /\
  (reporter s = RExited ->
     forall (later : list Action) (s' : State), exec s later = Some s' ->
       reporter s' = RExited /\ reports s' = reports s /\ lateSteps s' = lateSteps s).
Proof.
  intros Hexec.
  pose proof (signaled_exec schedule init s signaled_init Hexec) as (Hd & Hc & Hr & Ht & Hl).
  split; [exact Hd|]. split; [exact Hc|]. split; [|split; [|split]].
  - intros Hup. split; [|now apply Hl]. rewrite Hd.
    destruct (main s); try reflexivity; discriminate.
  - intros ok Hm. unfold step. rewrite Hm.
    destruct (reporter s); split; reflexivity.
  - intros Hclosed Hsel. unfold step. rewrite Hsel, Hclosed.
    destruct (main s); try destruct ok; reflexivity.
  - intros Hexit later s' Hlater. exact (exited_exec later s s' Hexit Hlater).
Qed.

(** The amended statement at the execution in which the upload fails. *)
Lemma reporter_signaled_once_after_upload_witness :
  let s := {| main := MReturned false; reporter := RSelect; doneClosed := true;
              tickPending := false; tickerStopped := true; closes := 1;
              reports := 1; lateSteps := 1 |} in
  doneClosed s = passedClose (main s) /\
  closes s = (if passedClose (main s) then 1 else 0) /\
  (uploadReturned (main s) = false -> doneClosed s = false /\ lateSteps s = 0) /\
  (forall ok, main s = MUploadReturned ok ->
     option_map doneClosed (step s CloseDone) = Some true /\
     option_map main (step s CloseDone) = Some (MSignaled ok)) /\
  (doneClosed s = true -> reporter s = RSelect ->
     option_map reporter (step s ReceiveDone) = Some RExited) /\
  (reporter s = RExited ->
     forall (later : list Action) (s' : State), exec s later = Some s' ->
       reporter s' = RExited /\ reports s' = reports s /\ lateSteps s' = lateSteps s).
Proof.
  apply (reporter_signaled_once_after_upload lateReportSchedule). reflexivity.
Defined.

End ReporterProofs.

(** * Part III: further properties of the code *)

(** ** MIME type against kind *)

Module ClassifierMore.
Import Strings Classifier.

(** One known extension after the other: the extension is that one, or it
    is none of those seen so far. *)
Ltac settle_extension :=
  cbn; intuition (first [discriminate | congruence | eexists; reflexivity | idtac]).

Ltac split_on_extension ext k :=
  destruct (String.eqb_spec ext k) as [-> | ?]; [ solve [settle_extension] | ].

Ltac forget_extension ext :=
  repeat match goal with
         | H : ext <> ?k |- _ =>
             rewrite ?(proj2 (String.eqb_neq ext k) H);
             assert (k <> ext) by congruence; clear H
         end.

Section WithUnicode.
Context {U : GoUnicode}.

(** X1.  The MIME table and the two extension lists do not cover the same
    extensions.  A MIME type [image/...] is only given to photos and a type
    [video/...] only to videos, but not the other way round: a photo has
    the generic type exactly for [.bmp], a video exactly for [.webm],
    [.flv] and [.3gp]; the audio, pdf and zip types go to documents.  A
    photo is sent without MIME type and file name; a video or document is
    sent with the MIME type of [getMimeType] and the file name. *)
Theorem mime_type_against_kind {F : Type} (fileName : string) (upload : F) :
  let ext := ToLower (Filepath.Ext fileName) in
  let m := fst (prepareMedia fileName upload) in
  let mime := getMimeType fileName in
  (HasPrefix mime "image/" = true -> kindOf m = photo) /\
  (HasPrefix mime "video/" = true -> kindOf m = video) /\
  (kindOf m = photo -> (mime = "application/octet-stream" <-> ext = ".bmp")) /\
  (kindOf m = video ->
   (mime = "application/octet-stream" <-> In ext [".webm"; ".flv"; ".3gp"])) /\
  (In ext [".mp3"; ".wav"; ".pdf"; ".zip"] ->
   kindOf m = document /\ mime <> "application/octet-stream") /\
  (kindOf m = photo -> m = InputMediaUploadedPhoto upload) /\
  (kindOf m <> photo ->
   exists attrs,
     m = InputMediaUploadedDocument upload mime
           (DocumentAttributeFilename fileName :: attrs)).
Proof.
  cbv zeta. unfold prepareMedia, getMimeType.
  generalize (ToLower (Filepath.Ext fileName)) as ext. intros ext.
  unfold isImageFile, isVideoFile, imageExts, videoExts, rangeContains, mimeSwitch.
  split_on_extension ext ".jpg". split_on_extension ext ".jpeg".
  split_on_extension ext ".png". split_on_extension ext ".gif".
  split_on_extension ext ".webp". split_on_extension ext ".bmp".
  split_on_extension ext ".mp4". split_on_extension ext ".mov".
  split_on_extension ext ".avi". split_on_extension ext ".mkv".
  split_on_extension ext ".webm". split_on_extension ext ".flv".
  split_on_extension ext ".3gp". split_on_extension ext ".mp3".
  split_on_extension ext ".wav". split_on_extension ext ".pdf".
  split_on_extension ext ".zip".
  forget_extension ext. settle_extension.
Qed.

End WithUnicode.

End ClassifierMore.

(** ** The command line *)

Module CliMore.
Import Cli.

(** X2.  [main] calls [run] exactly when the API id is not zero, the API
    hash and the phone are not empty and there is a source: a URL whose
    download succeeds, or else a file path.  The configuration then carries
    the flags unchanged.  When a required flag is missing [main] stops with
    a fatal message before any download is attempted; a missing API id or
    hash is reported first. *)
Theorem main_runs_only_on_valid_flags
    (download : string -> string * error) (flags : Flags) :
  ((exists config remove, main download flags = Run config remove) <->
   (api_id flags <> 0%Z /\ api_hash flags <> "" /\ phone flags <> "" /\
    ((url flags <> "" /\ snd (download (url flags)) = None) \/
     (url flags = "" /\ file flags <> "")))) /\
  (forall config remove, main download flags = Run config remove ->
     AppID config = api_id flags /\ AppHash config = api_hash flags /\
     Phone config = phone flags /\ TargetID config = target flags) /\
  (forall download' : string -> string * error,
     api_id flags = 0%Z \/ api_hash flags = "" \/ phone flags = "" \/
     (file flags = "" /\ url flags = "") ->
     main download' flags = main download flags /\
     exists msg, main download flags = Fatal msg) /\
  (api_id flags = 0%Z \/ api_hash flags = "" ->
   main download flags = Fatal "API ID and API Hash are required").
Proof.
  unfold main.
  destruct (Z.eqb_spec (api_id flags) 0) as [Hid | Hid];
    destruct (String.eqb_spec (api_hash flags) "") as [Hh | Hh];
    destruct (String.eqb_spec (file flags) "") as [Hf | Hf];
    destruct (String.eqb_spec (url flags) "") as [Hu | Hu];
    destruct (String.eqb_spec (phone flags) "") as [Hp | Hp];
    cbn [orb andb negb];
    try (destruct (download (url flags)) as [tmp [err|]] eqn:Ed; cbn [snd]);
    repeat split; intros;
    repeat match goal with
           | H : exists _, _ |- _ => destruct H
           | H : _ /\ _ |- _ => destruct H
           end;
    try discriminate; try congruence;
    try (match goal with
         | H : Run _ _ = Run _ _ |- _ => injection H as <- <-
         end; reflexivity);
    try (eexists; reflexivity); try (do 2 eexists; reflexivity);
    try (intuition (discriminate || congruence)).
Qed.

End CliMore.

(** ** The progress reader over any reader *)

Module ReadersProofs.
Import Strings.Byte Progress Readers.
Local Open Scope Z_scope.
Local Open Scope list_scope.

Lemma bytesOf_nonneg (results : list (list byte * error)) : 0 <= bytesOf results.
Proof.
  induction results as [|[p e] rest IH]; cbn [bytesOf]; lia.
Qed.

(** X3.  Whatever reader it wraps, the progress reader is transparent: a
    sequence of [Read] calls returns through it exactly the bytes and
    errors that the wrapped reader returns, and leaves the wrapped reader
    in the same state.  As long as the 64-bit counter does not overflow,
    the counter has grown by the total number of bytes returned, those
    returned together with an error included. *)
Theorem progress_reader_is_transparent {R} `{Reader R}
    (pr : progressReader R) (lens : list nat) :
  - 2 ^ 63 <= currentNum (bar pr) ->
  currentNum (bar pr) + bytesOf (readResults lens (Reader_ pr)) < 2 ^ 63 ->
  readResults lens pr = readResults lens (Reader_ pr) /\
  Reader_ (readMany lens pr) = readMany lens (Reader_ pr) /\
  currentNum (bar (readMany lens pr))
  = currentNum (bar pr) + bytesOf (readResults lens (Reader_ pr)).
Proof.
  revert pr. induction lens as [|lenp lens IH]; intros pr Hlow Hhigh.
  - cbn. repeat split. lia.
  - cbn [readResults readMany fold_left] in *.
    change (Read pr lenp) with (progressReader_Read pr lenp).
    unfold progressReader_Read.
    destruct (Read (Reader_ pr) lenp) as [[p e] r'] eqn:E.
    cbn [bytesOf fst snd] in *.
    pose proof (bytesOf_nonneg (readResults lens r')) as Hrest.
    set (pr' := {| Reader_ := r';
                   bar := if 0 <? Z.of_nat (List.length p)
                          then Add (bar pr) (Z.of_nat (List.length p))
                          else bar pr |}).
    assert (Hcur : currentNum (bar pr')
                   = currentNum (bar pr) + Z.of_nat (List.length p)).
    { unfold pr'. cbn [bar].
      destruct (0 <? Z.of_nat (List.length p)) eqn:Epos;
        rewrite ?Z.ltb_lt, ?Z.ltb_ge in Epos; [|lia].
      cbn [Add currentNum]. unfold int64_wrap. rewrite Z.mod_small; lia. }
    destruct (IH pr') as (Hres & Hstate & Hcount).
    + rewrite Hcur. lia.
    + rewrite Hcur. change (Reader_ pr') with r'. lia.
    + change (Reader_ pr') with r' in Hres, Hstate, Hcount.
      unfold readMany in Hstate, Hcount.
      rewrite Hres, Hstate, Hcount, Hcur. repeat split. lia.
Qed.

(** The theorem at a reader that returns its last byte with [io.EOF]. *)
Lemma progress_reader_is_transparent_witness :
  let pr := {| Reader_ := {| pending := [x61; x62; x63] |};
               bar := NewOptions64 3 |} in
  readResults [2; 2]%nat pr
  = readResults [2; 2]%nat {| pending := [x61; x62; x63] |} /\
  Reader_ (readMany [2; 2]%nat pr)
  = readMany [2; 2]%nat {| pending := [x61; x62; x63] |} /\
  currentNum (bar (readMany [2; 2]%nat pr))
  = 0 + bytesOf (readResults [2; 2]%nat {| pending := [x61; x62; x63] |}).
Proof.
  apply (progress_reader_is_transparent
           {| Reader_ := {| pending := [x61; x62; x63] |}; bar := NewOptions64 3 |}
           [2; 2]%nat).
  - vm_compute. discriminate.
  - vm_compute. reflexivity.
Defined.

End ReadersProofs.

Example Eager_returns_bytes_with_EOF :
  Readers.readResults [2; 2; 2]
    {| Progress.Reader_ := {| Readers.pending := [Byte.x61; Byte.x62; Byte.x63] |};
       Progress.bar := Progress.NewOptions64 3 |}
  = [([Byte.x61; Byte.x62], None); ([Byte.x63], Some "EOF"); ([], Some "EOF")].
Proof. reflexivity. Qed.

(** ** The goroutine can always be stopped *)

Module FinishProofs.
Import Reporter ReporterProofs Finish.

(** X4.  No execution gets stuck or leaks the goroutine for good: every
    reachable state can be continued, by [finish], to a state in which
    [uploadFile] has returned, the goroutine has returned, the ticker is
    stopped and [done] has been closed exactly once (closing it never
    panics); at most one more update of the description happens on the
    way, and in the final state no step of any party is enabled. *)
Theorem reporter_can_always_be_stopped (schedule : list Action) (s : State) :
  exec init schedule = Some s ->
  exists s',
    exec s (finish s) = Some s' /\
    (exists ok, main s' = MReturned ok) /\
    reporter s' = RExited /\
    tickerStopped s' = true /\
    doneClosed s' = true /\
    closes s' = 1 /\
    reports s <= reports s' <= S (reports s) /\
    forall a, step s' a = None.
Proof.
  intros Hexec.
  pose proof (signaled_exec schedule init s signaled_init Hexec)
    as (Hd & Hc & Hr & Ht & _).
  destruct s as [m r d tp ts c n l].
  cbn [main reporter doneClosed closes tickerStopped] in *.
  unfold finish. cbn [main reporter].
  destruct m as [| |[|]|[|]| |k]; destruct r;
    cbn [passedClose] in Hd, Hc; subst d c;
    try (destruct Hr as [Hr1 Hr2];
         first [specialize (Hr1 eq_refl) | specialize (Hr2 eq_refl)]; discriminate);
    try (assert (ts = true) by (apply Ht; eexists; reflexivity); subst ts);
    eexists; (split; [cbv; reflexivity|]);
    cbn [main reporter doneClosed closes tickerStopped reports];
    repeat split; try (eexists; reflexivity); try lia;
    try (intros a; destruct a as [| | | | | | | | |]; reflexivity).
Qed.

(** The theorem after the execution in which the upload fails. *)
Lemma reporter_can_always_be_stopped_witness :
  let s := {| main := MReturned false; reporter := RSelect; doneClosed := true;
              tickPending := false; tickerStopped := true; closes := 1;
              reports := 1; lateSteps := 1 |} in
  exists s',
    exec s (finish s) = Some s' /\
    (exists ok, main s' = MReturned ok) /\
    reporter s' = RExited /\
    tickerStopped s' = true /\
    doneClosed s' = true /\
    closes s' = 1 /\
    reports s <= reports s' <= S (reports s) /\
    forall a, step s' a = None.
Proof.
  apply (reporter_can_always_be_stopped lateReportSchedule). reflexivity.
Defined.

End FinishProofs.

(** ** Codes and passwords *)

Module TerminalProofs.
Import Strings Auth Terminal.

Lemma asciiSpace_isASCII (c : ascii) : asciiSpace c = true -> isASCII c = true.
Proof. destruct c as [[] [] [] [] [] [] [] []]; cbv; congruence. Qed.

Lemma list_ascii_of_append (s t : string) :
  list_ascii_of_string (s ++ t)
  = (list_ascii_of_string s ++ list_ascii_of_string t)%list.
Proof. induction s as [|c s IH]; cbn; [reflexivity | now rewrite IH]. Qed.

Lemma append_assoc_string (s t u : string) : (s ++ t) ++ u = s ++ t ++ u.
Proof. induction s as [|c s IH]; cbn; [reflexivity | now rewrite IH]. Qed.

Lemma rev_string_append (s t : string) :
  rev_string (s ++ t) = (rev_string t ++ rev_string s)%list.
Proof. unfold rev_string. now rewrite list_ascii_of_append, rev_app_distr. Qed.

Lemma unrev_rev_string (s : string) : unrev (rev_string s) EmptyString = s.
Proof.
  assert (G : forall (t : string) (out : list ascii) (acc : string),
             unrev (rev (list_ascii_of_string t) ++ out)%list acc
             = unrev out (t ++ acc)).
  { induction t as [|c t IH]; intros out acc; [reflexivity|].
    cbn [list_ascii_of_string rev]. rewrite <- app_assoc. cbn [app].
    now rewrite IH. }
  unfold rev_string. pose proof (G s [] EmptyString) as H.
  rewrite app_nil_r in H. rewrite H. cbn [unrev].
  clear. induction s as [|c s IH]; cbn; [reflexivity | now rewrite IH].
Qed.

Lemma all_bytes_weaken (p q : ascii -> bool) (s : string) :
  (forall c, p c = true -> q c = true) ->
  all_bytes p s = true -> all_bytes q s = true.
Proof.
  intros Hpq. induction s as [|c s IH]; cbn [all_bytes]; [reflexivity|].
  intros H. apply andb_prop in H as [Hc Hs]. rewrite (Hpq c Hc). now apply IH.
Qed.

Lemma all_bytes_app (p : ascii -> bool) (s t : string) :
  all_bytes p (s ++ t) = all_bytes p s && all_bytes p t.
Proof.
  induction s as [|c s IH]; cbn; [reflexivity | now rewrite IH, andb_assoc].
Qed.

Lemma blank_asciiSpace (c : ascii) : blank c = true -> asciiSpace c = true.
Proof. unfold blank. intros H. now apply andb_prop in H as [H _]. Qed.

Lemma blank_notNewline (c : ascii) : blank c = true -> notNewline c = true.
Proof. unfold blank, notNewline. intros H. now apply andb_prop in H as [_ H]. Qed.

Lemma cutLine_whole (s : string) :
  all_bytes notNewline s = true -> cutLine (s ++ newline) = Some (s ++ newline).
Proof.
  induction s as [|c s IH]; cbn [all_bytes]; intros H; [reflexivity|].
  apply andb_prop in H as [Hc Hs]. unfold notNewline in Hc.
  apply negb_true_iff in Hc. cbn [String.append cutLine]. rewrite Hc.
  now rewrite (IH Hs).
Qed.

Section WithUnicode.
Context {U : GoUnicode}.

Lemma TrimSpace_skips (pre s : string) :
  all_bytes asciiSpace pre = true -> TrimSpace (pre ++ s) = TrimSpace s.
Proof.
  induction pre as [|c pre IH]; cbn [all_bytes]; intros H; [reflexivity|].
  apply andb_prop in H as [Hc Hp].
  cbn [String.append TrimSpace]. rewrite (asciiSpace_isASCII c Hc), Hc.
  cbn [negb]. now apply IH.
Qed.

Lemma TrimSpace_blank (pre : string) :
  all_bytes asciiSpace pre = true -> TrimSpace pre = EmptyString.
Proof.
  induction pre as [|c pre IH]; cbn [all_bytes]; intros H; [reflexivity|].
  apply andb_prop in H as [Hc Hp].
  cbn [TrimSpace]. rewrite (asciiSpace_isASCII c Hc), Hc. cbn [negb]. now apply IH.
Qed.

Lemma TrimSpace_stop_skips (sp r : list ascii) :
  Forall (fun c => asciiSpace c = true) sp ->
  TrimSpace_stop (sp ++ r)%list = TrimSpace_stop r.
Proof.
  induction 1 as [|c sp Hc Hsp IH]; [reflexivity|].
  cbn [app TrimSpace_stop]. rewrite (asciiSpace_isASCII c Hc), Hc. cbn [negb].
  exact IH.
Qed.

Lemma TrimSpace_clean (pre core post : string) :
  all_bytes asciiSpace pre = true -> all_bytes asciiSpace post = true ->
  clean core = true -> TrimSpace (pre ++ core ++ post) = core.
Proof.
  intros Hpre Hpost Hclean. rewrite (TrimSpace_skips pre _ Hpre).
  unfold clean in Hclean. apply andb_prop in Hclean as [Hfirst Hlast].
  destruct core as [|c core]; [discriminate|].
  unfold solid in Hfirst. apply andb_prop in Hfirst as [Hascii Hns].
  apply negb_true_iff in Hns.
  cbn [String.append TrimSpace]. rewrite Hascii, Hns. cbn [negb].
  change (String c (core ++ post)) with (String c core ++ post).
  rewrite rev_string_append, TrimSpace_stop_skips.
  - destruct (rev_string (String c core)) as [|cl r] eqn:E; [discriminate|].
    unfold solid in Hlast. apply andb_prop in Hlast as [Hla Hls].
    apply negb_true_iff in Hls.
    cbn [TrimSpace_stop]. rewrite Hla, Hls. cbn [negb].
    rewrite <- E. apply unrev_rev_string.
  - unfold rev_string. apply Forall_rev.
    clear -Hpost. induction post as [|d post IH]; cbn in *; [constructor|].
    apply andb_prop in Hpost as [Hd Hp]. constructor; [exact Hd | now apply IH].
Qed.

(** X5.  [Code] and [Password] print their prompt, read one line and
    return it without the white space around it: when the line typed is
    [pre ++ core ++ post] followed by the end of the line, where [pre] and
    [post] are white space and [core] starts and ends with an ASCII byte
    that is not white space, both return [core] and no error, and consume
    that one read.  A line of white space only gives the empty string and
    no error; when the terminal is at its end both return the empty string
    and the read error. *)
Theorem code_and_password_are_trimmed_lines
    (a : termAuth) (w : World) (rest : list string) (pre core post : string) :
  all_bytes blank pre = true -> all_bytes blank post = true ->
  all_bytes notNewline core = true -> clean core = true ->
  stdin w = (pre ++ core ++ post ++ newline) :: rest ->
  termAuth_Code a w
  = ((core, None),
     {| stdin := rest;
        trace := trace w ++ [Printed "Enter the authentication code sent to your Telegram: ";
                             StdinRead] |}) /\
  termAuth_Password a w
  = ((core, None),
     {| stdin := rest;
        trace := trace w ++ [Printed "Enter your 2FA password: "; StdinRead] |}) /\
  (forall t, fst (termAuth_Code a {| stdin := (pre ++ newline) :: rest; trace := t |})
             = (EmptyString, None)) /\
  (forall t, fst (termAuth_Code a {| stdin := []; trace := t |})
             = (EmptyString, Some io_EOF) /\
             fst (termAuth_Password a {| stdin := []; trace := t |})
             = (EmptyString, Some io_EOF)).
Proof.
  intros Hpre Hpost Hcore Hclean Hin.
  assert (Hline : cutLine (pre ++ core ++ post ++ newline)
                  = Some (pre ++ core ++ post ++ newline)).
  { rewrite <- (append_assoc_string core post newline).
    rewrite <- (append_assoc_string pre (core ++ post) newline).
    apply cutLine_whole. rewrite !all_bytes_app, Hcore.
    rewrite (all_bytes_weaken _ _ pre blank_notNewline Hpre).
    now rewrite (all_bytes_weaken _ _ post blank_notNewline Hpost). }
  assert (Htrim : TrimSpace (pre ++ core ++ post ++ newline) = core).
  { apply TrimSpace_clean; [| |exact Hclean].
    - exact (all_bytes_weaken _ _ pre blank_asciiSpace Hpre).
    - rewrite all_bytes_app.
      now rewrite (all_bytes_weaken _ _ post blank_asciiSpace Hpost). }
  split; [|split; [|split]].
  - unfold termAuth_Code, bind, Print, emit, readLine, ret. cbn [stdin trace].
    rewrite Hin. cbn [ReadString]. rewrite Hline. unfold nil_error.
    cbn [String.append]. rewrite Htrim. now rewrite <- app_assoc.
  - unfold termAuth_Password, bind, Print, emit, readLine, ret. cbn [stdin trace].
    rewrite Hin. cbn [ReadString]. rewrite Hline. unfold nil_error.
    cbn [String.append]. rewrite Htrim. now rewrite <- app_assoc.
  - intros t. unfold termAuth_Code, bind, Print, emit, readLine, ret.
    cbn [stdin trace ReadString].
    rewrite cutLine_whole by exact (all_bytes_weaken _ _ pre blank_notNewline Hpre).
    unfold nil_error. cbn [String.append fst]. f_equal.
    apply TrimSpace_blank. rewrite all_bytes_app.
    now rewrite (all_bytes_weaken _ _ pre blank_asciiSpace Hpre).
  - intros t. split; reflexivity.
Qed.

End WithUnicode.

(** The theorem at a code typed with a space before and a carriage return
    after it. *)
Lemma code_and_password_are_trimmed_lines_witness :
  let w := {| stdin := [" 12345" ++ String "013" newline; "next"]; trace := [] |} in
  @termAuth_Code asciiOnly {| phone := "+15550100" |} w
  = (("12345", None),
     {| stdin := ["next"];
        trace := [Printed "Enter the authentication code sent to your Telegram: ";
                  StdinRead] |}) /\
  @termAuth_Password asciiOnly {| phone := "+15550100" |} w
  = (("12345", None),
     {| stdin := ["next"];
        trace := [Printed "Enter your 2FA password: "; StdinRead] |}) /\
  (forall t, fst (@termAuth_Code asciiOnly {| phone := "+15550100" |}
                    {| stdin := (" " ++ newline) :: ["next"]; trace := t |})
             = (EmptyString, None)) /\
  (forall t, fst (@termAuth_Code asciiOnly {| phone := "+15550100" |}
                    {| stdin := []; trace := t |})
             = (EmptyString, Some io_EOF) /\
             fst (@termAuth_Password asciiOnly {| phone := "+15550100" |}
                    {| stdin := []; trace := t |})
             = (EmptyString, Some io_EOF)).
Proof.
  apply (@code_and_password_are_trimmed_lines asciiOnly {| phone := "+15550100" |}
           {| stdin := [" 12345" ++ String "013" newline; "next"]; trace := [] |}
           ["next"] " " "12345" (String "013" EmptyString));
    reflexivity.
Defined.

End TerminalProofs.

(** ** What a run can end in *)

Module RunProofs.
Import Strings Auth AuthProofs.

Section WithUnicode.
Context {U : GoUnicode}.

(** X6.  A run starts [uploadFile] at most once.  It returns no error only
    if [uploadFile] was started and returned none; it never starts it when
    the session directory cannot be created (then the client is not even
    started) or when the status request fails (then nothing is asked on
    the terminal); in both cases the error says which step failed. *)
Theorem run_uploads_at_most_once (env : Env) (config : Cli.Config) (w : World) :
  let result := run env config w in
  count isUpload (trace (snd result)) <= count isUpload (trace w) + 1 /\
  (fst result = None ->
   count isUpload (trace (snd result)) = count isUpload (trace w) + 1 /\
   uploadFile env config = None) /\
  (forall e, mkdirAll env Cli.sessionDir = Some e ->
   result = (wrapf "failed to create session directory" e,
             {| stdin := stdin w;
                trace := trace w ++ [MkdirAll Cli.sessionDir] |})) /\
  (forall authorized e,
   mkdirAll env Cli.sessionDir = None ->
   authStatus (telegram env) = (authorized, Some e) ->
   result = (wrapf "failed to get auth status" e,
             {| stdin := stdin w;
                trace := trace w ++ [MkdirAll Cli.sessionDir;
                                     ClientRun (Cli.sessionPath (Cli.Phone config));
                                     Remote CallAuthStatus] |})).
Proof.
  cbv zeta.
  unfold run, runBody, bind, emit, Status, request, logPrintln, bind, emit, ret.
  cbn [stdin trace].
  destruct (mkdirAll env Cli.sessionDir) as [edir|] eqn:Edir.
  - cbn [fst snd trace]. rewrite count_app. unfold count at 2. cbn.
    repeat split; try lia; try discriminate.
    intros e He. injection He as <-. reflexivity.
  - destruct (authStatus (telegram env)) as [authorized [est|]] eqn:Est.
    + cbn [fst snd trace stdin]. rewrite <- !app_assoc. cbn [app].
      rewrite count_app. unfold count at 2. cbn.
      repeat split; try lia; try discriminate.
      intros a e _ He. injection He as <- <-. reflexivity.
    + destruct authorized; cbn [negb].
      * unfold nil_error. cbn [fst snd trace stdin]. rewrite <- !app_assoc. cbn [app].
        rewrite count_app. unfold count at 2. cbn.
        repeat split; try lia; try discriminate; auto.
      * cbn [stdin trace]. rewrite <- !app_assoc. cbn [app].
        pose proof (IfNecessary_never_uploads (telegram env)
                      {| phone := Cli.Phone config |}
                      {| stdin := stdin w;
                         trace := trace w ++ [MkdirAll Cli.sessionDir;
                                              ClientRun (Cli.sessionPath (Cli.Phone config));
                                              Remote CallAuthStatus;
                                              Logged "Starting authentication flow..."] |})
          as Hsilent.
        destruct (IfNecessary _ _ _) as [[eflow|] w'] eqn:Eflow;
          cbn [fst snd trace stdin] in *.
        -- rewrite Hsilent, count_app. unfold count at 2. cbn.
           repeat split; try lia; try discriminate.
        -- rewrite <- !app_assoc. cbn [app]. rewrite count_app, Hsilent, count_app.
           unfold count at 2 3. cbn.
           repeat split; try lia; try discriminate; auto.
Qed.

End WithUnicode.

End RunProofs.

(** ** Downloading the source *)

Example downloadFileFromURL_picture :
  Download.downloadFileFromURL Download.pictureSystem "https://example.org/albums/2024/holiday.jpg"
  = (("/tmp/holiday.jpg3141592653", None), Some "/tmp/holiday.jpg3141592653").
Proof. reflexivity. Qed.

Example CreateTemp_examples :
  Download.CreateTemp Download.pictureSystem "" "a*b*c" = ("/tmp/a*b3141592653c", None)
  /\ Download.CreateTemp Download.pictureSystem "/var/" "x" = ("/var/x3141592653", None)
  /\ Download.CreateTemp Download.pictureSystem "" "a/b"
     = ("", Some "createtemp a/b: pattern contains path separator").
Proof. repeat split; reflexivity. Qed.

Module DownloadProofs.
Import Strings Download.

Lemma lastElement_no_separator (r : list ascii) (acc : string) :
  hasSeparator acc = false -> hasSeparator (Filepath.lastElement r acc) = false.
Proof.
  revert acc. induction r as [|c r IH]; intros acc Hacc; [exact Hacc|].
  cbn [Filepath.lastElement].
  destruct (Filepath.IsPathSeparator c) eqn:E; [exact Hacc|].
  apply IH. cbn [hasSeparator]. now rewrite E.
Qed.

(** [filepath.Base] never returns the empty string, and a separator only
    as the whole result. *)
Lemma Base_shape (path : string) :
  Filepath.Base path <> EmptyString /\
  (Filepath.Base path = "/" \/ hasSeparator (Filepath.Base path) = false).
Proof.
  unfold Filepath.Base. destruct path as [|c path]; [split; [discriminate | now right]|].
  pose proof (lastElement_no_separator
                (Filepath.stripTrailingSeparators (rev_string (String c path)))
                EmptyString eq_refl) as H.
  destruct (Filepath.lastElement _ _) as [|d b]; split;
    try discriminate; [now left | now right].
Qed.

Lemma tempPattern_valid (resp : Response) :
  tempPattern resp <> EmptyString /\ hasSeparator (tempPattern resp) = false.
Proof.
  unfold tempPattern.
  destruct (Base_shape (RequestURLPath resp)) as [Hne [Hroot | Hsep]].
  - rewrite Hroot. cbn. split; [discriminate | reflexivity].
  - destruct (String.eqb_spec (Filepath.Base (RequestURLPath resp)) "") as [E | E];
      [contradiction|].
    destruct (String.eqb_spec (Filepath.Base (RequestURLPath resp)) "/") as [E' | E'];
      cbn [orb]; [split; [discriminate | reflexivity] | split; assumption].
Qed.

Lemma joinPath_not_empty (dir name : string) : joinPath dir name <> EmptyString.
Proof.
  unfold joinPath.
  assert (G : forall a b : string, a ++ "/" ++ b <> EmptyString).
  { intros a b. destruct a; discriminate. }
  destruct (rev_string dir) as [|c r] eqn:E; [apply G|].
  destruct (Filepath.IsPathSeparator c); [|apply G].
  destruct dir; [discriminate E | discriminate].
Qed.

(** X7.  [downloadFileFromURL] never returns a path together with an
    error, and on success the path is not empty and names the temporary
    file it created.  An error is the error of the request, a status other
    than 200, the failure to create the file or the failure to copy: the
    pattern handed to [os.CreateTemp] is never refused for holding a path
    separator.  No temporary file is created when the request fails or the
    status is not 200; when the copy fails the temporary file stays on
    disk although no path is returned. *)
Theorem download_error_behaviour (sys : System) (url : string) :
  let r := downloadFileFromURL sys url in
  (forall p e, fst r = (p, Some e) ->
     p = EmptyString /\
     (Get sys url = inr e \/
      (exists resp, Get sys url = inl resp /\ StatusCode resp <> 200%Z /\
                    e = "bad status: " ++ Status resp) \/
      openError sys = Some e \/ copyError sys = Some e)) /\
  (snd (fst r) = None ->
     fst (fst r) <> EmptyString /\ snd r = Some (fst (fst r))) /\
  (forall e, Get sys url = inr e -> snd r = None) /\
  (forall resp, Get sys url = inl resp -> StatusCode resp <> 200%Z -> snd r = None) /\
  (forall resp e, Get sys url = inl resp -> StatusCode resp = 200%Z ->
     openError sys = None -> copyError sys = Some e ->
     fst r = (EmptyString, Some e) /\ exists name, snd r = Some name).
Proof.
  cbv zeta. unfold downloadFileFromURL, CreateTemp, prefixAndSuffix, StatusOK, Errorf.
  destruct (Get sys url) as [resp | eget] eqn:Eget.
  - destruct (tempPattern_valid resp) as [_ Hsep]. rewrite Hsep.
    destruct (Z.eqb_spec (StatusCode resp) 200) as [Hst | Hst]; cbn [negb].
    + set (ps := match splitLastStar (tempPattern resp) with
                 | Some ps => ps
                 | None => (tempPattern resp, EmptyString)
                 end).
      assert (Eps : match splitLastStar (tempPattern resp) with
                    | Some ps => inl ps
                    | None => inl (tempPattern resp, EmptyString)
                    end = (inl ps : (string * string) + string)).
      { unfold ps. destruct (splitLastStar (tempPattern resp)); reflexivity. }
      rewrite Eps. destruct ps as [prefix suffix].
      destruct (openError sys) as [eopen|] eqn:Eopen;
        [|destruct (copyError sys) as [ecopy|] eqn:Ecopy];
        unfold nil_error; cbn [fst snd]; repeat split; intros;
        try discriminate; try congruence;
        try (match goal with H : (_, _) = (_, _) |- _ => injection H as <- <- end);
        try reflexivity; try (eexists; reflexivity); auto.
      intros Hempty.
      destruct (joinPath (if String.eqb "" "" then TempDir sys else "") prefix) eqn:Ej;
        [now apply joinPath_not_empty in Ej | discriminate].
    + cbn [fst snd]. repeat split; intros; try discriminate; try congruence;
        repeat match goal with
               | H : (_, _) = (_, _) |- _ => injection H as <- <-
               | H : inl _ = inl _ |- _ => injection H as <-
               end;
        try reflexivity; try contradiction.
      right. left. exists resp. repeat split. exact Hst.
  - cbn [fst snd]. repeat split; intros; try discriminate; try congruence;
      repeat match goal with
             | H : (_, _) = (_, _) |- _ => injection H as <- <-
             end;
      try reflexivity.
    now left.
Qed.

(** *** The name of the downloaded file *)

Lemma digit_plain (c : ascii) :
  Cli.isDigit c = true ->
  Filepath.IsPathSeparator c = false /\ Filepath.isDot c = false /\
  isASCII c = true /\ Cli.isDigit (lowerByte c) = true.
Proof. destruct c as [[] [] [] [] [] [] [] []]; cbv; intuition congruence. Qed.

Lemma Forall_take {A} (P : A -> Prop) (k : nat) (l : list A) :
  Forall P l -> Forall P (firstn k l).
Proof.
  revert k. induction l as [|x l IH]; intros [|k] H; cbn; try constructor.
  - now inversion H.
  - apply IH. now inversion H.
Qed.

Lemma unrev_acc (l : list ascii) (a b : string) :
  unrev l (a ++ b) = unrev l a ++ b.
Proof.
  revert a. induction l as [|c l IH]; intros a; [reflexivity|].
  cbn [unrev]. exact (IH (String c a)).
Qed.

Lemma Ext_scan_shape (r : list ascii) (suffix : string) :
  Filepath.Ext_scan r suffix = EmptyString \/
  exists k, Filepath.Ext_scan r suffix = unrev (firstn k r) suffix.
Proof.
  revert suffix. induction r as [|c r IH]; intros suffix; [now left|].
  cbn [Filepath.Ext_scan].
  destruct (Filepath.IsPathSeparator c); [now left|].
  destruct (Filepath.isDot c).
  - right. exists 1. reflexivity.
  - destruct (IH (String c suffix)) as [H | [k H]]; [now left|].
    right. exists (S k). exact H.
Qed.

Lemma no_separator_list (s : string) :
  hasSeparator s = false ->
  Forall (fun c => Filepath.IsPathSeparator c = false) (rev_string s).
Proof.
  intros H. unfold rev_string. apply Forall_rev.
  induction s as [|c s IH]; cbn in *; [constructor|].
  apply orb_false_elim in H as [Hc Hs]. constructor; [exact Hc | now apply IH].
Qed.

Lemma lastElement_element (l rd : list ascii) (acc : string) :
  Forall (fun c => Filepath.IsPathSeparator c = false) l ->
  Filepath.lastElement (l ++ "/"%char :: rd)%list acc = unrev l acc.
Proof.
  intros Hl. revert acc. induction Hl as [|c l Hc Hl IH]; intros acc; [reflexivity|].
  cbn [app Filepath.lastElement unrev]. rewrite Hc. apply IH.
Qed.

(** The last element of a path that is a directory followed by a name. *)
Lemma Base_after_directory (dir name : string) (rd : list ascii) :
  rev_string dir = "/"%char :: rd -> hasSeparator name = false ->
  name <> EmptyString -> Filepath.Base (dir ++ name) = name.
Proof.
  intros Hdir Hsep Hne.
  pose proof (no_separator_list name Hsep) as Hl.
  unfold Filepath.Base.
  destruct (dir ++ name) as [|c0 s0] eqn:E.
  { destruct dir; [destruct name; [contradiction | discriminate E] | discriminate E]. }
  rewrite <- E. rewrite TerminalProofs.rev_string_append, Hdir.
  destruct (rev_string name) as [|c r] eqn:En.
  { destruct name as [|c n]; [contradiction|].
    unfold rev_string in En. cbn [list_ascii_of_string rev] in En.
    now apply app_eq_nil in En as [_ En]. }
  inversion Hl as [|c' r' Hc Hr]; subst.
  cbn [app Filepath.stripTrailingSeparators]. rewrite Hc.
  change (c :: (r ++ "/"%char :: rd))%list with ((c :: r) ++ "/"%char :: rd)%list.
  rewrite (lastElement_element (c :: r) rd EmptyString Hl).
  rewrite <- En, TerminalProofs.unrev_rev_string.
  destruct name; [contradiction | reflexivity].
Qed.

Lemma joinPath_directory (dir name : string) :
  exists d rd, joinPath dir name = d ++ name /\ rev_string d = "/"%char :: rd.
Proof.
  unfold joinPath.
  assert (G : exists d rd, dir ++ "/" ++ name = d ++ name
                           /\ rev_string d = "/"%char :: rd).
  { exists (dir ++ "/"), (rev_string dir). split.
    - now rewrite TerminalProofs.append_assoc_string.
    - now rewrite TerminalProofs.rev_string_append. }
  destruct (rev_string dir) as [|c r] eqn:E; [exact G|].
  destruct (Filepath.IsPathSeparator c) eqn:Ec; [|exact G].
  exists dir, r. split; [reflexivity|].
  unfold Filepath.IsPathSeparator in Ec. apply Ascii.eqb_eq in Ec. now subst c.
Qed.

Ltac known_extension ext k H :=
  destruct (String.eqb_spec ext k) as [-> | ?];
  [ solve [ destruct H as [H | H]; discriminate H
          | cbn; intuition (discriminate || congruence) ] | ].

(** An extension that is empty or ends with a digit is no image extension,
    is a video extension only as [.mp4], and has one of three MIME types. *)
Lemma digit_extension (ext : string) :
  ext = EmptyString \/ endsWithDigit ext = true ->
  Classifier.isImageFile ext = false /\
  (Classifier.isVideoFile ext = true -> ext = ".mp4") /\
  In (Classifier.mimeSwitch ext) ["application/octet-stream"; "video/mp4"; "audio/mpeg"].
Proof.
  intros H.
  unfold Classifier.isImageFile, Classifier.isVideoFile, Classifier.imageExts,
    Classifier.videoExts, Classifier.rangeContains, Classifier.mimeSwitch.
  known_extension ext ".jpg" H. known_extension ext ".jpeg" H.
  known_extension ext ".png" H. known_extension ext ".gif" H.
  known_extension ext ".webp" H. known_extension ext ".bmp" H.
  known_extension ext ".mp4" H. known_extension ext ".mov" H.
  known_extension ext ".avi" H. known_extension ext ".mkv" H.
  known_extension ext ".webm" H. known_extension ext ".flv" H.
  known_extension ext ".3gp" H. known_extension ext ".mp3" H.
  known_extension ext ".wav" H. known_extension ext ".pdf" H.
  known_extension ext ".zip" H.
  ClassifierMore.forget_extension ext.
  cbn. intuition (discriminate || congruence).
Qed.

Section WithUnicode.
Context {U : GoUnicode}.

(** The lowered extension of an ASCII name that ends with a digit is empty
    or ends with a digit. *)
Lemma extension_of_digit_name (name : string) :
  all_bytes isASCII name = true -> endsWithDigit name = true ->
  ToLower (Filepath.Ext name) = EmptyString \/
  endsWithDigit (ToLower (Filepath.Ext name)) = true.
Proof.
  intros Hascii Hdigit. unfold endsWithDigit in Hdigit.
  pose proof (StringsProofs.asciiList_rev_string name Hascii) as Hlist.
  unfold Filepath.Ext.
  destruct (rev_string name) as [|d r] eqn:E; [discriminate|].
  destruct (digit_plain d Hdigit) as (Hsep & Hdot & Hd & Hlow).
  cbn [Filepath.Ext_scan]. rewrite Hsep, Hdot.
  destruct (Ext_scan_shape r (String d EmptyString)) as [H | [k H]]; rewrite H;
    [now left|].
  right.
  change (String d EmptyString) with (EmptyString ++ String d EmptyString).
  rewrite unrev_acc.
  assert (Hpre : all_bytes isASCII (unrev (firstn k r) EmptyString ++ String d EmptyString)
                 = true).
  { rewrite TerminalProofs.all_bytes_app. cbn [all_bytes]. rewrite Hd. cbn [andb].
    rewrite andb_true_r. apply StringsProofs.all_bytes_unrev; [|reflexivity].
    inversion Hlist; subst. now apply Forall_take. }
  rewrite (StringsProofs.ToLower_ascii _ Hpre).
  unfold endsWithDigit.
  rewrite StringsProofs.rev_string_map_bytes, TerminalProofs.rev_string_append.
  exact Hlow.
Qed.


End WithUnicode.


End DownloadProofs.

(** ** The steps of [uploadFile] *)

Example uploadFile_run :
  @UploadFile.uploadFile Strings.asciiOnly string UploadFile.exampleEnv
    UploadFile.exampleRand
    {| Cli.AppID := 1; Cli.AppHash := "h"; Cli.Phone := "+1";
       Cli.FilePath := "/home/me/clip.MP4"; Cli.TargetID := "someone" |}
  = (None,
     [UploadFile.Opened "/home/me/clip.MP4";
      UploadFile.UploadCalled "clip.MP4" 3;
      UploadFile.Sent
        {| RandomID.Media :=
             Classifier.InputMediaUploadedDocument "handle of clip.MP4" "video/mp4"
               [Classifier.DocumentAttributeFilename "clip.MP4";
                Classifier.DocumentAttributeVideo true];
           RandomID.Message := "Uploaded file: clip.MP4";
           RandomID.RandomID := 42 |};
      UploadFile.Closed "/home/me/clip.MP4"],
     [Byte.x07]).
Proof. reflexivity. Qed.

Module UploadFileProofs.
Import Strings UploadFile.

Section WithUnicode.
Context {U : GoUnicode}.

(** X9.  [uploadFile] sends at most one message, and only after [os.Stat],
    [os.Open], the upload and the minting of the identifier have all
    succeeded; a file that was opened is closed on every path.  It returns
    no error only if the one message was sent and accepted, and that
    message carries the media prepared from the last element of the path,
    the caption "Uploaded file: " followed by that name and the identifier
    decoded from the next eight random bytes.  A failing [os.Stat],
    [os.Open] or upload gives the wrapped error of that step and leaves the
    random source untouched.  Of the configuration only the file path is
    used: the target is ignored. *)
Theorem uploadFile_sends_once_after_upload {H : Type}
    (env : Env H) (rand : RandomID.RandReader) (config : Cli.Config) :
  let path := Cli.FilePath config in
  let name := Filepath.Base path in
  let r := uploadFile env rand config in
  let err := fst (fst r) in
  let events := snd (fst r) in
  occurrences isSent events <= 1 /\
  occurrences isOpened events = occurrences isClosed events /\
  (occurrences isSent events = 0 -> err <> None) /\
  (err = None ->
   exists size content upload bs,
     Stat env path = (size, None) /\ Open env path = inl content /\
     Upload env name
       {| Progress.Reader_ := {| Progress.unread := content |};
          Progress.bar := Progress.NewOptions64 size |} size = inl upload /\
     rand = (bs ++ snd r)%list /\ List.length bs = 8 /\
     events = [Opened path; UploadCalled name size;
               Sent {| RandomID.Media := fst (Classifier.prepareMedia name upload);
                       RandomID.Message := "Uploaded file: " ++ name;
                       RandomID.RandomID := RandomID.idOf bs |};
               Closed path] /\
     MessagesSendMedia env
       {| RandomID.Media := fst (Classifier.prepareMedia name upload);
          RandomID.Message := "Uploaded file: " ++ name;
          RandomID.RandomID := RandomID.idOf bs |} = None) /\
  (forall size e, Stat env path = (size, Some e) ->
     r = (wrapf "failed to get file info" e, [], rand)) /\
  (forall size e, Stat env path = (size, None) -> Open env path = inr e ->
     r = (wrapf "failed to open file" e, [], rand)) /\
  (forall size content e,
     Stat env path = (size, None) -> Open env path = inl content ->
     Upload env name
       {| Progress.Reader_ := {| Progress.unread := content |};
          Progress.bar := Progress.NewOptions64 size |} size = inr e ->
     r = (wrapf "upload failed" e,
          [Opened path; UploadCalled name size; Closed path], rand)) /\
  (forall config', Cli.FilePath config' = Cli.FilePath config ->
     uploadFile env rand config' = r).
Proof.
  cbv zeta. unfold uploadFile.
  split; [|split; [|split; [|split; [|split; [|split; [|split]]]]]];
    try (intros config' ->; reflexivity);
    destruct (Stat env (Cli.FilePath config)) as [size [estat|]] eqn:Estat;
    try (cbn; intros; first [lia | discriminate | congruence]);
    try reflexivity;
    destruct (Open env (Cli.FilePath config)) as [content | eopen] eqn:Eopen;
    try (cbn; intros; first [lia | discriminate | congruence]);
    try reflexivity;
    destruct (Upload env _ _ _) as [upload | eup] eqn:Eup;
    try (cbn; intros; first [lia | discriminate | congruence]);
    try reflexivity;
    unfold RandomID.sendUploaded, RandomID.generateRandomID, RandomID.ReadFull;
    destruct (8 <=? List.length rand) eqn:Elen;
    try (destruct rand; cbn; intros; first [lia | discriminate | congruence]);
    try (destruct (MessagesSendMedia env _) as [esend|] eqn:Esend;
         cbn; intros; first [lia | discriminate | congruence | idtac]).
  apply Nat.leb_le in Elen.
  exists size, content, upload, (firstn 8 rand).
  split; [reflexivity|]. split; [reflexivity|]. split; [exact Eup|].
  split; [symmetry; exact (firstn_skipn 8 rand)|].
  split; [rewrite length_firstn; lia|].
  split; [reflexivity|]. exact Esend.
Qed.

End WithUnicode.

End UploadFileProofs.

(** ** The wrapper *)

Example wrapper_runs_main :
  Wrapper.main (Wrapper.exampleSystem "/tmp/go-build1/b001/exe/upload")
    {| Wrapper.file := "videos/../clip.mp4"; Wrapper.target := "me" |}
  = {| Wrapper.command :=
         Some ["go"; "run"; "main.go"; "-api-id"; "12345";
               "-api-hash"; "0123456789abcdef"; "-phone"; "+15550100";
               "-file"; "/home/me/fileuploader/clip.mp4"; "-target"; "me"];
       Wrapper.exit := Wrapper.Returned |}.
Proof. reflexivity. Qed.

Example wrapper_under_another_name :
  Wrapper.main (Wrapper.exampleSystem "/usr/local/bin/tgsend")
    {| Wrapper.file := "clip.mp4"; Wrapper.target := "me" |}
  = {| Wrapper.command := None;
       Wrapper.exit :=
         Wrapper.FlagExit 2 "flag provided but not defined: -api-id" |}.
Proof. reflexivity. Qed.

Example parseUndefined_examples :
  Wrapper.parseUndefined [] = None
  /\ Wrapper.parseUndefined ["clip.mp4"; "-x"] = None
  /\ Wrapper.parseUndefined ["-"] = None
  /\ Wrapper.parseUndefined ["--"; "-x"] = None
  /\ Wrapper.parseUndefined ["--file=a=b"]
     = Some "flag provided but not defined: -file"
  /\ Wrapper.parseUndefined ["---x"] = Some "bad flag syntax: ---x"
  /\ Wrapper.parseUndefined ["-h"] = Some Wrapper.ErrHelp.
Proof. repeat split. Qed.

Module WrapperProofs.
Import Strings Wrapper.

Lemma backtrack_keeps_root (o : list ascii) (d : ascii) :
  exists o', Filepath.backtrack 1 d (o ++ ["/"%char])%list = (o' ++ ["/"%char])%list.
Proof.
  revert d. induction o as [|c o IH]; intros d.
  - exists []. reflexivity.
  - cbn [app Filepath.backtrack].
    destruct ((1 <? List.length (c :: o ++ ["/"%char])%list)
              && negb (Filepath.IsPathSeparator d)).
    + apply IH.
    + exists (c :: o). reflexivity.
Qed.

(** On a rooted path the output buffer of [Clean] keeps its leading
    separator. *)
Lemma Clean_loop_rooted (n : nat) :
  forall (path : string) (copying : bool) (o : list ascii),
    String.length path <= n ->
    exists o', Filepath.Clean_loop true copying path (o ++ ["/"%char])%list 1
               = (o' ++ ["/"%char])%list.
Proof.
  induction n as [|n IH]; intros path copying o Hlen.
  - destruct path; [exists o; reflexivity | cbn in Hlen; lia].
  - destruct path as [|c rest]; [exists o; reflexivity|].
    cbn [String.length] in Hlen.
    assert (Hrest : String.length rest <= n) by lia.
    cbn [Filepath.Clean_loop].
    destruct (Filepath.IsPathSeparator c); [now apply IH|].
    destruct copying; [exact (IH rest true (c :: o) Hrest)|].
    assert (Hreal : exists o',
               Filepath.Clean_loop true true rest
                 (c :: (if (true && negb (List.length (o ++ ["/"%char])%list =? 1))
                           || (negb true && negb (List.length (o ++ ["/"%char])%list =? 0))
                        then "/"%char :: (o ++ ["/"%char])%list
                        else (o ++ ["/"%char])%list)) 1
               = (o' ++ ["/"%char])%list).
    { destruct ((true && negb (List.length (o ++ ["/"%char])%list =? 1))
                || (negb true && negb (List.length (o ++ ["/"%char])%list =? 0))).
      - exact (IH rest true (c :: "/"%char :: o) Hrest).
      - exact (IH rest true (c :: o) Hrest). }
    destruct (Filepath.isDot c && match rest with
                                  | EmptyString => true
                                  | String d _ => Filepath.IsPathSeparator d
                                  end); [now apply IH|].
    destruct rest as [|d rest']; [exact Hreal|].
    cbn [String.length] in Hrest.
    assert (Hrest' : String.length rest' <= n) by lia.
    destruct (Filepath.isDot c && Filepath.isDot d
              && match rest' with
                 | EmptyString => true
                 | String d0 _ => Filepath.IsPathSeparator d0
                 end); [|exact Hreal].
    cbn [negb].
    destruct (1 <? List.length (o ++ ["/"%char])%list) eqn:Hdeep;
      [|now apply IH].
    destruct o as [|x o1]; cbn [app]; [discriminate Hdeep|].
    destruct (backtrack_keeps_root o1 x) as [o2 Hback]. rewrite Hback.
    now apply IH.
Qed.

(** [filepath.Clean] of a rooted path is rooted. *)
Lemma Clean_rooted (rest : string) :
  IsAbs (Filepath.Clean (String "/" rest)) = true.
Proof.
  unfold Filepath.Clean.
  change (Filepath.IsPathSeparator "/") with true. cbv iota.
  destruct (Clean_loop_rooted (String.length rest) rest false [] (le_n _))
    as [o' Hloop].
  cbn [app] in Hloop. rewrite Hloop.
  assert (Hroot : unrev (o' ++ ["/"%char])%list EmptyString
                  = String "/" (unrev o' EmptyString)).
  { clear. generalize EmptyString.
    induction o' as [|c o' IH]; intros acc; [reflexivity|].
    cbn [app unrev]. apply IH. }
  destruct (o' ++ ["/"%char])%list eqn:E; [now destruct o'|].
  rewrite Hroot. unfold IsAbs. cbn. now destruct (unrev o' EmptyString).
Qed.

Lemma IsAbs_rooted (path : string) :
  IsAbs path = true -> exists rest, path = String "/" rest.
Proof.
  unfold IsAbs. destruct path as [|c rest]; cbn; [discriminate|].
  destruct (Ascii.eqb_spec c "/"); [subst; eauto | discriminate].
Qed.

(** [filepath.Abs] returns an absolute path when the path or the working
    directory is one. *)
Lemma Abs_absolute (getwd : string * error) (path abs : string) :
  IsAbs path = true \/ IsAbs (fst getwd) = true ->
  Abs getwd path = (abs, None) -> IsAbs abs = true.
Proof.
  intros Hrooted. unfold Abs. destruct (IsAbs path) eqn:Ep.
  - intros H. injection H as <-.
    destruct (IsAbs_rooted path Ep) as [rest ->]. apply Clean_rooted.
  - destruct Hrooted as [|Hwd]; [discriminate|].
    destruct getwd as [wd [err|]]; [discriminate|].
    intros H. injection H as <-.
    destruct (IsAbs_rooted wd Hwd) as [rest ->].
    cbn [Filepath.Join Filepath.joinSep String.append]. apply Clean_rooted.
Qed.

Lemma main_checked (sys : System) (flags : Flags) :
  checked sys flags ->
  main sys flags
  = let args := arguments sys (fst (Abs (Getwd sys) (file flags))) (target flags) in
    if namedUpload sys then
      let cmd := "go" :: "run" :: "main.go" :: args in
      {| command := Some cmd;
         exit := match cmdRun sys cmd with
                 | Some err => Fatal ("Command failed: " ++ err)
                 | None => Returned
                 end |}
    else {| command := None; exit := parseOrExit args |}.
Proof.
  intros (Hfile & Hstat & Hconfig & Hid & Hhash & Hphone & Habs & Hexe).
  unfold main, namedUpload.
  apply String.eqb_neq in Hfile, Hhash, Hphone. apply Z.eqb_neq in Hid.
  rewrite Hfile, Hstat, Hconfig, Hid, Hhash, Hphone. cbn [orb].
  destruct (Abs (Getwd sys) (file flags)) as [absPath abserr].
  destruct (Executable sys) as [mainBinary exeerr].
  cbn [fst snd] in *. subst abserr exeerr.
  destruct (Contains (Filepath.Base mainBinary) "upload"); [|reflexivity].
  cbv zeta. now destruct (cmdRun sys _).
Qed.

Lemma main_unchecked (sys : System) (flags : Flags) :
  ~ checked sys flags ->
  command (main sys flags) = None /\ exists msg, exit (main sys flags) = Fatal msg.
Proof.
  intros Hnot. unfold main.
  destruct (String.eqb_spec (file flags) ""); [cbn; eauto|].
  destruct (notExist sys (file flags)) eqn:Hstat; [cbn; eauto|].
  destruct (readInConfig sys) as [err|] eqn:Hconfig; [cbn; eauto|].
  destruct (Z.eqb_spec (API_ID sys) 0); [cbn; eauto|].
  destruct (String.eqb_spec (API_HASH sys) ""); [cbn; eauto|].
  destruct (String.eqb_spec (PHONE sys) ""); [cbn; eauto|].
  cbn [orb].
  destruct (Abs (Getwd sys) (file flags)) as [absPath [err|]] eqn:Habs;
    [cbn; eauto|].
  destruct (Executable sys) as [mainBinary [err|]] eqn:Hexe; [cbn; eauto|].
  exfalso. apply Hnot. unfold checked. rewrite Habs, Hexe. now repeat split.
Qed.

Lemma checked_dec (sys : System) (flags : Flags) :
  checked sys flags \/ ~ checked sys flags.
Proof.
  unfold checked.
  destruct (String.eqb_spec (file flags) ""); [right; tauto|].
  destruct (notExist sys (file flags)); [right; intuition discriminate|].
  destruct (readInConfig sys); [right; intuition discriminate|].
  destruct (Z.eqb_spec (API_ID sys) 0); [right; tauto|].
  destruct (String.eqb_spec (API_HASH sys) ""); [right; tauto|].
  destruct (String.eqb_spec (PHONE sys) ""); [right; tauto|].
  destruct (snd (Abs (Getwd sys) (file flags))); [right; intuition discriminate|].
  destruct (snd (Executable sys)); [right; intuition discriminate|].
  left. now repeat split.
Qed.

(** X10. The wrapper starts a command exactly when the file flag is not
    empty, [os.Stat] does not report the file as missing, the configuration
    is read and gives a non-zero API id, a hash and a phone, the absolute
    path and the executable are found, and the base name of the running
    binary contains [upload].  The command is then
    [go run main.go -api-id .. -api-hash .. -phone .. -file .. -target ..]
    with the values of the configuration, the absolute path of the file
    (rooted as soon as the path or the working directory is) and the
    target, and the wrapper returns iff the command succeeds.  Under any
    other name of the binary nothing is started: the arguments are parsed
    by an empty flag set and the process exits with status 2.  Whenever no
    command is started the wrapper does not return normally. *)
Theorem wrapper_starts_go_run_or_nothing (sys : System) (flags : Flags) :
  ((exists c, command (main sys flags) = Some c)
   <-> checked sys flags /\ namedUpload sys = true)
  /\ (forall c, command (main sys flags) = Some c ->
       c = "go" :: "run" :: "main.go"
           :: arguments sys (fst (Abs (Getwd sys) (file flags))) (target flags)
       /\ (IsAbs (file flags) = true \/ IsAbs (fst (Getwd sys)) = true ->
           IsAbs (fst (Abs (Getwd sys) (file flags))) = true)
       /\ (exit (main sys flags) = Returned <-> cmdRun sys c = None))
  /\ (checked sys flags /\ namedUpload sys = false ->
      main sys flags
      = {| command := None;
           exit := FlagExit 2 "flag provided but not defined: -api-id" |})
  /\ (command (main sys flags) = None -> exit (main sys flags) <> Returned).
Proof.
  set (absPath := fst (Abs (Getwd sys) (file flags))).
  set (cmd := "go" :: "run" :: "main.go" :: arguments sys absPath (target flags)).
  destruct (checked_dec sys flags) as [Hchecked|Hnot].
  - pose proof (main_checked sys flags Hchecked) as Hmain. cbv zeta in Hmain.
    fold absPath in Hmain. fold cmd in Hmain.
    destruct (namedUpload sys) eqn:Hname; rewrite Hmain; cbn [command exit].
    + split; [split; eauto|].
      split.
      * intros c Hc. injection Hc as <-. split; [reflexivity|]. split.
        -- intros Hrooted.
           destruct Hchecked as (_ & _ & _ & _ & _ & _ & Habs & _).
           apply (Abs_absolute (Getwd sys) (file flags)); [exact Hrooted|].
           subst absPath.
           destruct (Abs (Getwd sys) (file flags)) as [a e]. cbn in *.
           now subst e.
        -- destruct (cmdRun sys cmd); split; congruence.
      * split; [intros [_ H]; discriminate|discriminate].
    + split; [split; [intros [c Hc]; discriminate | intros [_ H]; discriminate]|].
      split; [discriminate|].
      split; [reflexivity|].
      intros _. discriminate.
  - destruct (main_unchecked sys flags Hnot) as [Hcommand [msg Hexit]].
    rewrite Hcommand, Hexit.
    split; [split; [intros [c Hc]; discriminate | intros [H _]; contradiction]|].
    split; [discriminate|].
    split; [intros [H _]; contradiction|].
    intros _. discriminate.
Qed.

End WrapperProofs.

(** ** Signing up *)

Example SignUp_two_lines :
  @Auth.termAuth_SignUp Strings.asciiOnly {| Auth.phone := "+15550100" |}
    {| Auth.stdin := ["Ada" ++ Auth.newline; "Lovelace" ++ Auth.newline];
       Auth.trace := [] |}
  = (({| Auth.FirstName := "Ada"; Auth.LastName := "Lovelace" |}, None),
     {| Auth.stdin := [];
        Auth.trace := [Auth.Printed "Enter your first name: "; Auth.StdinRead;
                       Auth.Printed "Enter your last name (optional): ";
                       Auth.StdinRead] |}).
Proof. reflexivity. Qed.

Module SignUpProofs.
Import Strings Auth Terminal TerminalProofs.

Lemma cutLine_first (s more : string) :
  all_bytes notNewline s = true ->
  cutLine ((s ++ newline) ++ more) = Some (s ++ newline).
Proof.
  induction s as [|c s IH]; cbn [all_bytes]; intros H; [reflexivity|].
  apply andb_prop in H as [Hc Hs]. unfold notNewline in Hc.
  apply negb_true_iff in Hc. cbn [String.append cutLine]. rewrite Hc.
  now rewrite (IH Hs).
Qed.

(** One read that holds a whole line gives that line; what the read holds
    after the line is not seen by a later reader. *)
Lemma readLine_first (s more : string) (rest : list string) (t : list Event) :
  all_bytes notNewline s = true ->
  readLine {| stdin := ((s ++ newline) ++ more) :: rest; trace := t |}
  = ((s ++ newline, None), {| stdin := rest; trace := t ++ [StdinRead] |}).
Proof.
  intros Hs. unfold readLine. cbn [stdin trace ReadString].
  now rewrite (cutLine_first s more Hs).
Qed.

Lemma typed_notNewline (pre core post : string) :
  all_bytes blank pre = true -> all_bytes blank post = true ->
  all_bytes notNewline core = true ->
  all_bytes notNewline (pre ++ core ++ post) = true.
Proof.
  intros Hpre Hpost Hcore. rewrite !all_bytes_app, Hcore.
  rewrite (all_bytes_weaken _ _ pre blank_notNewline Hpre).
  now rewrite (all_bytes_weaken _ _ post blank_notNewline Hpost).
Qed.

Section WithUnicode.
Context {U : GoUnicode}.

Lemma TrimSpace_typed (pre core post : string) :
  all_bytes blank pre = true -> all_bytes blank post = true ->
  clean core = true ->
  TrimSpace ((pre ++ core ++ post) ++ newline) = core.
Proof.
  intros Hpre Hpost Hclean.
  rewrite (append_assoc_string pre (core ++ post) newline).
  rewrite (append_assoc_string core post newline).
  apply TrimSpace_clean; [| |exact Hclean].
  - exact (all_bytes_weaken _ _ pre blank_asciiSpace Hpre).
  - rewrite all_bytes_app.
    now rewrite (all_bytes_weaken _ _ post blank_asciiSpace Hpost).
Qed.

Lemma TrimSpace_empty_line (pre : string) :
  all_bytes blank pre = true -> TrimSpace (pre ++ newline) = EmptyString.
Proof.
  intros Hpre. apply TrimSpace_blank. rewrite all_bytes_app.
  now rewrite (all_bytes_weaken _ _ pre blank_asciiSpace Hpre).
Qed.

(** X11.  [SignUp] asks for the first and the last name with a new buffered
    reader each: when the two lines arrive in two reads, it returns the two
    names without the white space around them and no error; a last line of
    white space gives an empty last name, and so does a first line (the
    first name is not checked).  When one read brings more than the first
    line, the second reader does not see the remainder: if nothing else
    arrives, [SignUp] returns the first name, an empty last name and the
    read error.  At the end of the input the second prompt is not
    printed. *)
Theorem sign_up_reads_one_line_per_reader
    (a : termAuth) (t : list Event) (rest : list string)
    (pre1 first post1 pre2 last post2 more : string) :
  all_bytes blank pre1 = true -> all_bytes blank post1 = true ->
  all_bytes blank pre2 = true -> all_bytes blank post2 = true ->
  all_bytes notNewline first = true -> clean first = true ->
  all_bytes notNewline last = true -> clean last = true ->
  termAuth_SignUp a
    {| stdin := ((pre1 ++ first ++ post1) ++ newline)
                  :: ((pre2 ++ last ++ post2) ++ newline) :: rest;
       trace := t |}
  = (({| FirstName := first; LastName := last |}, None),
     {| stdin := rest;
        trace := t ++ [Printed "Enter your first name: "; StdinRead;
                       Printed "Enter your last name (optional): "; StdinRead] |})
  /\ termAuth_SignUp a
       {| stdin := (pre1 ++ newline) :: (pre2 ++ newline) :: rest; trace := t |}
     = (({| FirstName := ""; LastName := "" |}, None),
        {| stdin := rest;
           trace := t ++ [Printed "Enter your first name: "; StdinRead;
                          Printed "Enter your last name (optional): ";
                          StdinRead] |})
  /\ termAuth_SignUp a
       {| stdin := [((pre1 ++ first ++ post1) ++ newline)
                      ++ ((pre2 ++ last ++ post2) ++ newline) ++ more];
          trace := t |}
     = (({| FirstName := first; LastName := "" |}, Some io_EOF),
        {| stdin := [];
           trace := t ++ [Printed "Enter your first name: "; StdinRead;
                          Printed "Enter your last name (optional): ";
                          StdinRead] |})
  /\ termAuth_SignUp a {| stdin := []; trace := t |}
     = (({| FirstName := ""; LastName := "" |}, Some io_EOF),
        {| stdin := [];
           trace := t ++ [Printed "Enter your first name: "; StdinRead] |}).
Proof.
  intros Hpre1 Hpost1 Hpre2 Hpost2 Hfirst Hcfirst Hlast Hclast.
  pose proof (typed_notNewline pre1 first post1 Hpre1 Hpost1 Hfirst) as Hline1.
  pose proof (typed_notNewline pre2 last post2 Hpre2 Hpost2 Hlast) as Hline2.
  pose proof (all_bytes_weaken _ _ pre1 blank_notNewline Hpre1) as Hblank1.
  pose proof (all_bytes_weaken _ _ pre2 blank_notNewline Hpre2) as Hblank2.
  assert (Hnil : forall s : string, s ++ EmptyString = s).
  { induction s as [|c s IH]; cbn; [reflexivity | now rewrite IH]. }
  assert (Hwhole : forall s rest t, all_bytes notNewline s = true ->
            readLine {| stdin := (s ++ newline) :: rest; trace := t |}
            = ((s ++ newline, None), {| stdin := rest; trace := t ++ [StdinRead] |})).
  { intros s r t0 Hs. rewrite <- (Hnil (s ++ newline)) at 1.
    now apply readLine_first. }
  split; [|split; [|split]];
    unfold termAuth_SignUp, bind, Print, emit, ret; cbn [stdin trace].
  - rewrite (Hwhole _ _ _ Hline1). cbn [stdin trace].
    rewrite (Hwhole _ _ _ Hline2).
    rewrite (TrimSpace_typed pre1 first post1 Hpre1 Hpost1 Hcfirst).
    rewrite (TrimSpace_typed pre2 last post2 Hpre2 Hpost2 Hclast).
    now rewrite <- !app_assoc.
  - rewrite (Hwhole _ _ _ Hblank1). cbn [stdin trace].
    rewrite (Hwhole _ _ _ Hblank2).
    rewrite (TrimSpace_empty_line pre1 Hpre1), (TrimSpace_empty_line pre2 Hpre2).
    now rewrite <- !app_assoc.
  - rewrite (readLine_first _ _ _ _ Hline1). cbn [stdin trace].
    rewrite (TrimSpace_typed pre1 first post1 Hpre1 Hpost1 Hcfirst).
    unfold readLine. cbn [stdin trace ReadString].
    now rewrite <- !app_assoc.
  - unfold readLine. cbn [stdin trace ReadString]. now rewrite <- !app_assoc.
Qed.

End WithUnicode.

(** The theorem at a first name typed with a space before and a carriage
    return after it. *)
Lemma sign_up_reads_one_line_per_reader_witness :
  let a := {| phone := "+15550100" |} in
  let line1 := " Ada" ++ String "013" newline in
  let line2 := "Lovelace" ++ newline in
  let prompts := [Printed "Enter your first name: "; StdinRead;
                  Printed "Enter your last name (optional): "; StdinRead] in
  @termAuth_SignUp asciiOnly a {| stdin := [line1; line2; "next"]; trace := [] |}
  = (({| FirstName := "Ada"; LastName := "Lovelace" |}, None),
     {| stdin := ["next"]; trace := prompts |})
  /\ @termAuth_SignUp asciiOnly a
       {| stdin := [" " ++ newline; newline; "next"]; trace := [] |}
     = (({| FirstName := ""; LastName := "" |}, None),
        {| stdin := ["next"]; trace := prompts |})
  /\ @termAuth_SignUp asciiOnly a
       {| stdin := [line1 ++ line2 ++ "x"]; trace := [] |}
     = (({| FirstName := "Ada"; LastName := "" |}, Some io_EOF),
        {| stdin := []; trace := prompts |})
  /\ @termAuth_SignUp asciiOnly a {| stdin := []; trace := [] |}
     = (({| FirstName := ""; LastName := "" |}, Some io_EOF),
        {| stdin := [];
           trace := [Printed "Enter your first name: "; StdinRead] |}).
Proof.
  apply (@sign_up_reads_one_line_per_reader asciiOnly {| phone := "+15550100" |}
           [] ["next"] " " "Ada" (String "013" EmptyString)
           EmptyString "Lovelace" EmptyString "x"); reflexivity.
Defined.

End SignUpProofs.

(** ** The temporary file *)

Example main_removes_after_success :
  Program.main Download.pictureSystem (fun _ => None) Program.urlFlags
  = {| Program.fatal := None;
       Program.ran :=
         Some {| Cli.AppID := 12345; Cli.AppHash := "0123456789abcdef";
                 Cli.Phone := "+15550100";
                 Cli.FilePath := "/tmp/holiday.jpg3141592653";
                 Cli.TargetID := "me" |};
       Program.removed := Some "/tmp/holiday.jpg3141592653" |}.
Proof. reflexivity. Qed.

Example main_keeps_after_failure :
  Program.main Download.pictureSystem (fun _ => Some "upload failed: timeout")
    Program.urlFlags
  = {| Program.fatal := Some "upload failed: timeout";
       Program.ran :=
         Some {| Cli.AppID := 12345; Cli.AppHash := "0123456789abcdef";
                 Cli.Phone := "+15550100";
                 Cli.FilePath := "/tmp/holiday.jpg3141592653";
                 Cli.TargetID := "me" |};
       Program.removed := None |}.
Proof. reflexivity. Qed.

Module ProgramProofs.
Import Program.

Lemma download_success (sys : Download.System) (url p : string) :
  fst (Download.downloadFileFromURL sys url) = (p, None) ->
  Download.downloadFileFromURL sys url = ((p, None), Some p).
Proof.
  unfold Download.downloadFileFromURL.
  destruct (Download.Get sys url) as [resp|err]; [|discriminate].
  destruct (negb (Download.StatusCode resp =? Download.StatusOK)%Z); [discriminate|].
  destruct (Download.CreateTemp sys "" (Download.tempPattern resp)) as [name [err|]];
    [discriminate|].
  destruct (Download.copyError sys); [discriminate|].
  cbn [fst]. intros H. now injection H as ->.
Qed.

(** What [main] hands to [run]. *)
Lemma main_reaches_run (sys : Download.System) (flags : Cli.Flags)
    (config : Cli.Config) (remove : option string) :
  Cli.main (fun url => fst (Download.downloadFileFromURL sys url)) flags
  = Cli.Run config remove ->
  (Cli.url flags <> ""
   /\ Download.downloadFileFromURL sys (Cli.url flags)
      = ((Cli.FilePath config, None), Some (Cli.FilePath config))
   /\ remove = Some (Cli.FilePath config))
  \/ (Cli.url flags = "" /\ Cli.FilePath config = Cli.file flags /\ remove = None).
Proof.
  unfold Cli.main.
  destruct ((Cli.api_id flags =? 0)%Z || String.eqb (Cli.api_hash flags) "");
    [discriminate|].
  destruct (String.eqb (Cli.file flags) "" && String.eqb (Cli.url flags) "");
    [discriminate|].
  destruct (String.eqb (Cli.phone flags) ""); [discriminate|].
  destruct (String.eqb_spec (Cli.url flags) "") as [Eu|Eu]; cbn [negb].
  - intros H. injection H as <- <-. right. cbn [Cli.FilePath]. auto.
  - destruct (fst (Download.downloadFileFromURL sys (Cli.url flags)))
      as [tmp [err|]] eqn:Ed; [discriminate|].
    intros H. injection H as <- <-. left. cbn [Cli.FilePath].
    split; [exact Eu|]. split; [now apply download_success | reflexivity].
Qed.

(** X12.  The temporary file of [--url] is removed only when [run] returns
    no error: [main] ends without a fatal message exactly when [run] was
    called and returned none, and a file is removed only then, and it is
    the file that [downloadFileFromURL] created and [run] was given.  When
    [run] fails after a download, the file it was given exists and is not
    removed, since [log.Fatal] does not run the deferred [os.Remove]; the
    same holds on every other fatal path.  A file given with [--file] is
    never removed. *)
Theorem temporary_file_removed_only_on_success
    (sys : Download.System) (run : Cli.Config -> error) (flags : Cli.Flags) :
  (fatal (main sys run flags) = None
   <-> exists config, ran (main sys run flags) = Some config /\ run config = None)
  /\ (forall p, removed (main sys run flags) = Some p ->
       fatal (main sys run flags) = None
       /\ Cli.url flags <> ""
       /\ Download.downloadFileFromURL sys (Cli.url flags) = ((p, None), Some p)
       /\ exists config,
            ran (main sys run flags) = Some config /\ Cli.FilePath config = p)
  /\ (forall config err,
       ran (main sys run flags) = Some config -> run config = Some err ->
       fatal (main sys run flags) = Some err
       /\ removed (main sys run flags) = None
       /\ (Cli.url flags <> "" ->
           snd (Download.downloadFileFromURL sys (Cli.url flags))
           = Some (Cli.FilePath config)))
  /\ (Cli.url flags = "" -> removed (main sys run flags) = None).
Proof.
  unfold main.
  destruct (Cli.main (fun url => fst (Download.downloadFileFromURL sys url)) flags)
    as [msg|config remove] eqn:Hmain.
  - cbn [fatal ran removed].
    split; [split; [discriminate | intros [c [H _]]; discriminate]|].
    split; [discriminate|]. split; [discriminate | reflexivity].
  - pose proof (main_reaches_run sys flags config remove Hmain) as Hrun.
    destruct (run config) as [err|] eqn:Hr; cbn [fatal ran removed].
    + split; [split; [discriminate | intros [c [H Hc]]; congruence]|].
      split; [discriminate|].
      split; [|reflexivity].
      intros c e Hc He. injection Hc as <-.
      split; [congruence|]. split; [reflexivity|].
      intros Hurl. destruct Hrun as [(_ & Hd & _)|(Hu & _)]; [|contradiction].
      now rewrite Hd.
    + split; [split; [eauto | reflexivity]|].
      split.
      * intros p Hp. split; [reflexivity|].
        destruct Hrun as [(Hu & Hd & Hrem)|(_ & _ & Hrem)]; [|congruence].
        assert (Cli.FilePath config = p) as <- by congruence. eauto.
      * split; [intros c e Hc He; congruence|].
        intros Hu. destruct Hrun as [(Hn & _)|(_ & _ & Hrem)];
          [contradiction | exact Hrem].
Qed.

End ProgramProofs.
